(** * cppsocket: a shallow embedding of [expected.hpp] and [cppsocket.cpp]

    The development follows the two translation units of the library:

    - [Expected<T>] ([include/expected.hpp]), the value-or-exception result
      type, with its tag and its union modelled separately;
    - the address resolver, the UDP connection, the TCP connection and the
      TCP listener of [src/cppsocket.cpp], written as programs over the
      operating-system calls they issue. *)

From Stdlib Require Import ZArith.
From stdpp Require Import gmap strings list pretty.

Local Open Scope string_scope.
Local Open Scope Z_scope.

(** ** C++ exceptions *)

(** The dynamic types of the exception objects the library creates.
    [ptr_to_runtime_error] is the type of the operand of
    [throw new std::runtime_error(...)], which throws a pointer. *)
Inductive exn_type :=
| runtime_error
| logic_error
| invalid_argument
| out_of_range
| ptr_to_runtime_error.

#[global] Instance exn_type_eq_dec : EqDecision exn_type.
Proof. solve_decision. Defined.

Record exception := mk_exception { dyn_type : exn_type; what : string }.

#[global] Instance exception_eq_dec : EqDecision exception.
Proof. solve_decision. Defined.

(** [std::exception_ptr]: null, or a handle on an exception object. *)
Definition exception_ptr := option exception.

(** [std::make_exception_ptr<E>(e)]: a handle on a copy of [e] that is
    made as an [E], the static type of the argument.  What a class derived
    from [E] adds is sliced off: the dynamic type of the copy is [E],
    whatever that of [e] is. *)
Definition make_exception_ptr (E : exn_type) (e : exception) : exception_ptr :=
  Some {| dyn_type := E; what := what e |}.

(** What a C++ expression evaluation ends in. *)
Inductive outcome (A : Type) :=
| Returns (a : A)
| Throws (e : exception)
| Undefined.
Arguments Returns {A} a.
Arguments Throws {A} e.
Arguments Undefined {A}.

(** ** [Expected<T>] *)

Module Expected.
Section WithT.
Context {T : Type}.

(** The anonymous union [{ T __value; std::exception_ptr __exception; }]:
    one slot, holding the member that was last constructed in it. *)
Inductive storage :=
| holds_value (v : T)
| holds_exception (p : exception_ptr).

Record t := mk { __erred : bool; __union : storage }.

(** Member reads.  Reading the member that is not live has no defined
    result. *)
Definition read_value (x : t) : option T :=
  match __union x with holds_value v => Some v | holds_exception _ => None end.

Definition read_exception (x : t) : option exception_ptr :=
  match __union x with holds_exception p => Some p | holds_value _ => None end.

(** [Expected(const T& rhs)] and [Expected(T&& rhs)]. *)
Definition of_value (rhs : T) : t :=
  {| __erred := false; __union := holds_value rhs |}.

(** [Expected(const std::exception_ptr& rhs)] and its rvalue overload. *)
Definition of_exception_ptr (rhs : exception_ptr) : t :=
  {| __erred := true; __union := holds_exception rhs |}.

(** [template <typename E> static Expected<T> unexpected(const E& e)]:
    [E] is the static type of the argument, [dyn_type e] what [typeid(e)]
    reports. *)
Definition unexpected (E : exn_type) (e : exception) : outcome t :=
  if decide (dyn_type e = E)
  then Returns (of_exception_ptr (make_exception_ptr E e))
  else Throws (mk_exception invalid_argument
                 "Expected::unexpected: slicing detected").

(** [Expected(const Expected& rhs)], and the object that
    [Expected(Expected&& rhs)] constructs. *)
Definition copy (rhs : t) : outcome t :=
  if __erred rhs
  then match read_exception rhs with
       | Some p => Returns {| __erred := true; __union := holds_exception p |}
       | None => Undefined
       end
  else match read_value rhs with
       | Some v => Returns {| __erred := false; __union := holds_value v |}
       | None => Undefined
       end.

(** What [Expected(Expected&& rhs)] leaves in [rhs]: the tag as it was,
    and the live member moved from.  A moved-from [std::exception_ptr] is
    null (libstdc++); a moved-from [T] holds [residue], whatever the move
    constructor of [T] leaves behind. *)
Definition moved_from (residue : T) (rhs : t) : outcome t :=
  if __erred rhs
  then match read_exception rhs with
       | Some _ => Returns {| __erred := true; __union := holds_exception None |}
       | None => Undefined
       end
  else match read_value rhs with
       | Some _ => Returns {| __erred := false; __union := holds_value residue |}
       | None => Undefined
       end.

(** [std::exception_ptr exception()]. *)
Definition exception_ (x : t) : outcome exception_ptr :=
  if negb (__erred x) then Returns None
  else match read_exception x with
       | Some p => Returns p
       | None => Undefined
       end.

(** [bool erred() const]. *)
Definition erred (x : t) : bool := __erred x.

(** [T& get()]: [std::rethrow_exception] requires a non-null pointer. *)
Definition get (x : t) : outcome T :=
  if __erred x
  then match read_exception x with
       | Some (Some e) => Throws e
       | Some None => Undefined
       | None => Undefined
       end
  else match read_value x with
       | Some v => Returns v
       | None => Undefined
       end.

(** What [a.swap(b)] ends in. *)
Inductive swap_result :=
| Swapped (this rhs : t)
| SwapUndefined
| SwapIllFormed (diagnostic : string).

(** The four branches of the body of [swap], each read on its own.  Two
    of them name things that do not exist: [rhs.wap], and [rhs.swap] used
    as an [exception_ptr]. *)
Definition swap_branch (this rhs : t) : swap_result :=
  if negb (__erred this) then
    if negb (__erred rhs) then
      (* swap(__value, rhs.__value); *)
      match read_value this, read_value rhs with
      | Some v, Some w =>
          Swapped {| __erred := __erred this; __union := holds_value w |}
                  {| __erred := __erred rhs; __union := holds_value v |}
      | _, _ => SwapUndefined
      end
    else
      (* auto tmp = std::move(rhs.__exception);
         new(&rhs.__value) T(std::move(__value));
         new(&__exception) std::exception_ptr(tmp);
         std::swap(__erred, rhs.__erred); *)
      match read_exception rhs, read_value this with
      | Some tmp, Some v =>
          Swapped {| __erred := __erred rhs; __union := holds_exception tmp |}
                  {| __erred := __erred this; __union := holds_value v |}
      | _, _ => SwapUndefined
      end
  else
    if negb (__erred rhs) then
      (* rhs.wap( *this); *)
      SwapIllFormed "no member named wap in Expected<T>"
    else
      (* __exception.swap(rhs.swap); std::swap(__erred, rhs.__erred); *)
      SwapIllFormed "rhs.swap is a member function, not an exception_ptr".

(** [void swap(Expected& rhs)].  The four branches are one function
    body, and a body that holds an ill-formed statement has no
    translation: no call of [swap] compiles, whichever branch it would
    take.  A call is reported with the diagnostic of the branch it would
    take when that branch is ill-formed, and with that of the first
    ill-formed statement of the body otherwise. *)
Definition swap (this rhs : t) : swap_result :=
  match swap_branch this rhs with
  | SwapIllFormed d => SwapIllFormed d
  | Swapped _ _ | SwapUndefined =>
      SwapIllFormed "no member named wap in Expected<T>"
  end.

(** The objects a program can obtain, indexed by what they hold: a
    success value, or an exception pointer, which may be null.  They are
    built by the converting constructors (the one from
    [std::exception_ptr] takes a null pointer as any other), by
    [unexpected], by the copy and move constructors, or are what a move
    leaves behind.  The index of an object built by [unexpected] is the
    argument as it was passed. *)
Inductive built_from : T + exception_ptr -> t -> Prop :=
| built_value v :
    built_from (inl v) (of_value v)
| built_unexpected E e x :
    unexpected E e = Returns x -> built_from (inr (Some e)) x
| built_exception_ptr p :
    built_from (inr p) (of_exception_ptr p)
| built_copy o x y :
    built_from o x -> copy x = Returns y -> built_from o y
| built_moved_from o x residue y :
    built_from o x -> moved_from residue x = Returns y ->
    built_from (match o with inl _ => inl residue | inr _ => inr None end) y.

(** The tag names the live member of the union. *)
Definition tag_matches (x : t) : Prop :=
  match __union x with
  | holds_value _ => __erred x = false
  | holds_exception _ => __erred x = true
  end.

End WithT.
Arguments t : clear implicits.
Arguments storage : clear implicits.
Arguments swap_result : clear implicits.
End Expected.

(** ** Machine integers and strings *)

(** [int] is 32 bits wide and [size_t] 64 (LP64); a conversion wraps. *)
Definition to_int (z : Z) : Z := (z + 2 ^ 31) mod 2 ^ 32 - 2 ^ 31.
Definition to_size_t (z : Z) : Z := z mod 2 ^ 64.

(** [std::string::npos]. *)
Definition npos : Z := 2 ^ 64 - 1.

(** [s.length()], which is [s.size()]. *)
Definition str_length (s : string) : Z := Z.of_nat (String.length s).

(** [s.find(delimiter)]: the first position at which [delimiter] occurs,
    or [npos]. *)
Definition find (s delimiter : string) : Z :=
  match String.index 0 delimiter s with
  | Some i => Z.of_nat i
  | None => npos
  end.

(** [s.substr(pos, n)] for [size_t] arguments: throws [std::out_of_range]
    when [pos > s.size()], and stops at the end of the string. *)
Definition substr (s : string) (pos n : Z) : outcome string :=
  if str_length s <? pos
  then Throws (mk_exception out_of_range "basic_string::substr")
  else Returns (String.substring (Z.to_nat pos)
                  (Z.to_nat (Z.min n (str_length s - pos))) s).

(** The characters a [const char*] obtained from [s.c_str()] denotes: those
    before the first NUL. *)
Fixpoint c_str (s : string) : string :=
  match s with
  | EmptyString => EmptyString
  | String c s' =>
      if decide (c = Ascii.zero) then EmptyString else String c (c_str s')
  end.

(** The double-quote character the messages embed. *)
Definition dquote : string := String (Ascii.ascii_of_nat 34) EmptyString.

(** [std::to_string(int)]. *)
Definition to_string (n : Z) : string := pretty n.

(** ** The operating system *)

(** Linux values of the constants the sources take from the system
    headers. *)
Definition AF_UNSPEC : Z := 0.
Definition AF_INET : Z := 2.
Definition AF_INET6 : Z := 10.
Definition SOCK_STREAM : Z := 1.
Definition SOCK_DGRAM : Z := 2.
Definition POLLIN : Z := 1.
Definition POLLOUT : Z := 4.
Definition POLLERR : Z := 8.
Definition SOL_SOCKET : Z := 1.
Definition SOL_TCP : Z := 6.
Definition TCP_NODELAY : Z := 1.
Definition SO_REUSEADDR : Z := 2.
Definition SO_RCVTIMEO : Z := 20.
Definition SO_SNDTIMEO : Z := 21.

(** A socket address object: its family, the 16-bit port field as a load
    on the host reads it (the field is stored in network byte order), and
    the bytes of the address field. *)
Record sockaddr := mk_sockaddr {
  sa_family : Z;
  sin_port : Z;
  sin_addr : list Z
}.

(** A [struct sockaddr*]: the pointer value, and the object it points to.
    [netaddr] reads both. *)
Record sockaddr_ptr := mk_sockaddr_ptr {
  sa_at : Z;
  sa_obj : sockaddr
}.

(** The head of the list [getaddrinfo] allocates; the sources never follow
    [ai_next]. *)
Record addrinfo := mk_addrinfo {
  ai_family : Z;
  ai_socktype : Z;
  ai_protocol : Z;
  ai_addr : sockaddr_ptr;
  ai_addrlen : Z
}.

Inductive optval :=
| opt_int (v : Z)
| opt_timeval (tv_sec tv_usec : Z).

(** The calls the library makes, indexed by what each hands back.  Calls
    that fill a [sockaddr_storage sas] local hand back the address of that
    local together with what was stored in it.  The bytes moved in and out
    of the I/O buffers are not tracked: only the counts are.  The last four
    are the operations on the members [__remotes_lock] and [__remotes] of
    a UDP connection. *)
Inductive call : Type -> Type :=
| sys_getaddrinfo (hostname : option string) (port : string)
    (hints_family hints_socktype : Z) : call (Z * addrinfo)
| sys_gai_strerror (status : Z) : call string
| sys_strerror_errno : call string
| sys_inet_ntop (family : Z) (addr : list Z) : call (option string)
| sys_socket (family socktype protocol : Z) : call Z
| sys_connect (fd : Z) (addr : sockaddr_ptr) (len : Z) : call Z
| sys_bind (fd : Z) (addr : sockaddr_ptr) (len : Z) : call Z
| sys_listen (fd backlog : Z) : call Z
| sys_setsockopt (fd level optname : Z) (v : optval) : call Z
| sys_close (fd : Z) : call Z
| sys_poll (fd events timeout : Z) : call (Z * Z)
| sys_read (fd len : Z) : call Z
| sys_write (fd len : Z) : call Z
| sys_recvfrom (fd len : Z) : call (Z * sockaddr_ptr)
| sys_sendto (fd len : Z) (to : sockaddr_ptr) (tolen : Z) : call Z
| sys_accept (fd : Z) : call (Z * sockaddr_ptr)
| sys_getsockname (fd : Z) : call (Z * sockaddr_ptr)
| mutex_lock : call unit
| mutex_unlock : call unit
| remotes_find (key : string) : call (option addrinfo)
| remotes_assign (key : string) (v : addrinfo) : call unit.

(** Programs: a tree of calls, each continued by what the call hands back,
    ending in a value, a thrown exception or undefined behaviour. *)
Inductive prog (A : Type) : Type :=
| Ret (a : A)
| Throw (e : exception)
| Undef
| Call {R : Type} (c : call R) (k : R -> prog A).
Arguments Ret {A} a.
Arguments Throw {A} e.
Arguments Undef {A}.
Arguments Call {A R} c k.

Fixpoint bind {A B : Type} (p : prog A) (f : A -> prog B) : prog B :=
  match p with
  | Ret a => f a
  | Throw e => Throw e
  | Undef => Undef
  | Call c k => Call c (fun r => bind (k r) f)
  end.

#[global] Instance prog_ret : MRet prog := fun _ a => Ret a.
#[global] Instance prog_bind : MBind prog := fun _ _ f p => bind p f.

Definition invoke {R : Type} (c : call R) : prog R := Call c Ret.

(** An expression evaluation inside a program. *)
Definition eval {A : Type} (o : outcome A) : prog A :=
  match o with
  | Returns a => Ret a
  | Throws e => Throw e
  | Undefined => Undef
  end.

Definition std_runtime_error (msg : string) : exception :=
  mk_exception runtime_error msg.
Definition std_logic_error (msg : string) : exception :=
  mk_exception logic_error msg.
Definition std_invalid_argument (msg : string) : exception :=
  mk_exception invalid_argument msg.

#[global] Instance outcome_ret : MRet outcome := fun _ a => Returns a.
#[global] Instance outcome_bind : MBind outcome := fun _ _ f o =>
  match o with
  | Returns a => f a
  | Throws e => Throws e
  | Undefined => Undefined
  end.

(** [Expected<T>::unexpected(e)] for an argument of static type [E], as
    a step of a program. *)
Definition unexpected {T : Type} (E : exn_type) (e : exception)
  : prog (Expected.t T) :=
  eval (Expected.unexpected E e).

(** ** [netaddr] *)

(** [ntohs] on a little-endian host: the two bytes of a 16-bit load
    exchanged. *)
Definition ntohs (x : Z) : Z :=
  Z.lor (Z.shiftl (Z.land x 255) 8) (Z.land (Z.shiftr x 8) 255).

(** [((struct sockaddr_in * )&sa)->sin_port] and
    [((struct sockaddr_in6 * )&sa)->sin6_port]: [&sa] is the address of the
    parameter [sa], so the 16-bit load at offset 2 reads bits 16..31 of the
    pointer value held there (little-endian, 64-bit pointers), whatever the
    socket address object contains. *)
Definition port_field_of_parameter (sa : sockaddr_ptr) : Z :=
  Z.land (Z.shiftr (sa_at sa) 16) 65535.

(** [static Expected<std::string> netaddr(const struct sockaddr* sa)]. *)
Definition netaddr (sa : sockaddr_ptr) : prog (Expected.t string) :=
  let family := sa_family (sa_obj sa) in
  let convert (port : Z) : prog (Expected.t string) :=
    (* saina points into the object itself: &((sockaddr_in* )sa)->sin_addr *)
    str ← invoke (sys_inet_ntop family (sin_addr (sa_obj sa)));
    match str with
    | None =>
        msg ← invoke sys_strerror_errno;
        unexpected runtime_error (std_runtime_error
          ("netaddr: unable to convert IP to human-readable form - " +:+ msg))
    | Some str =>
        mret (Expected.of_value (str +:+ ":" +:+ to_string port))
    end in
  if decide (family = AF_INET) then
    convert (ntohs (port_field_of_parameter sa))
  else if decide (family = AF_INET6) then
    convert (ntohs (port_field_of_parameter sa))
  else
    unexpected runtime_error
      (std_runtime_error "netaddr: unsupported family").

(** [static Expected<std::string> netaddr(int socket)]. *)
Definition netaddr_socket (socket : Z) : prog (Expected.t string) :=
  '(rc, sas) ← invoke (sys_getsockname socket);
  if decide (rc = -1) then
    msg ← invoke sys_strerror_errno;
    unexpected runtime_error (std_runtime_error
      ("netaddr: unable to aquire localaddr - " +:+ msg))
  else netaddr sas.

(** ** [Snipper] and [resolve] *)

Module Snipper.
Record t := mk { __str : string; __snipped : list string }.

(** [Snipper(const std::string& str, int snips)]; the reservation of
    [snips] elements keeps the pointers handed out by the first [snips]
    calls valid. *)
Definition new (str : string) (snips : Z) : t :=
  {| __str := str; __snipped := [] |}.

(** [const char* remaining_or(const char* c) const]. *)
Definition remaining_or (s : t) (c : string) : string :=
  if decide (__str s = EmptyString) then c else c_str (__str s).

(** [const char* operator()(const std::string& delimiter)]: [None] is
    the null pointer. *)
Definition snip (s : t) (delimiter : string) : outcome (option string * t) :=
  let pos := to_int (find (__str s) delimiter) in
  if decide (to_size_t pos = npos) then mret (None, s)
  else
    piece ← substr (__str s) 0 (to_size_t pos);
    rest ← substr (__str s) (to_size_t (pos + str_length delimiter))
                  (str_length (__str s));
    mret (Some (c_str piece),
          {| __str := rest; __snipped := __snipped s ++ [piece] |}).
End Snipper.

(** [static Expected<std::shared_ptr<struct addrinfo>>
     resolve(const std::string& address)]. *)
Definition resolve (address : string) : prog (Expected.t addrinfo) :=
  let snip := Snipper.new address 3 in
  '(protocol, snip) ← eval (Snipper.snip snip "://");
  '(hostname, snip) ← eval (Snipper.snip snip ":");
  let port := Snipper.remaining_or snip "80" in
  let lookup (socktype : Z) : prog (Expected.t addrinfo) :=
    '(status, resolved) ←
      invoke (sys_getaddrinfo hostname port AF_UNSPEC socktype);
    if decide (status ≠ 0) then
      msg ← invoke (sys_gai_strerror status);
      unexpected runtime_error (std_runtime_error
        ("resolve: trying to resolve " +:+ dquote +:+ address +:+ dquote
         +:+ " but failed - " +:+ msg))
    else mret (Expected.of_value resolved) in
  match protocol with
  | None =>
      (* std::string(protocol) for a null protocol *)
      Undef
  | Some protocol =>
      if decide (protocol = "tcp") then lookup SOCK_STREAM
      else if decide (protocol = "udp") then lookup SOCK_DGRAM
      else
        unexpected runtime_error (std_runtime_error
          ("resolve: unable to resolve " +:+ dquote +:+ address +:+ dquote
           +:+ " - Unsupported protocol " +:+ dquote +:+ protocol
           +:+ dquote))
  end.

(** The readiness wait every read, write and accept begins with:
    [poll(&pfd, 1, t.count())] on one descriptor, handing back the return
    value and [pfd.revents]. *)
Definition poll (fd events : Z) (t : Z) : prog (Z * Z) :=
  invoke (sys_poll fd events (to_int t)).

(** [result == -1 || pfd.revents & POLLERR]. *)
Definition poll_failed (result revents : Z) : bool :=
  bool_decide (result = -1) || negb (Z.land revents POLLERR =? 0).

(** The [timeval] a [std::chrono::microseconds] count is split into. *)
Definition timeval_of (t : Z) : optval :=
  let s := Z.quot t 1000000 in
  opt_timeval s (t - s * 1000000).

(** ** [UDPConnectionImpl] *)

Module UDPConnectionImpl.
(** The members [__remotes] and [__remotes_lock] are reached through the
    calls [remotes_find], [remotes_assign], [mutex_lock] and
    [mutex_unlock]. *)
Record t := mk {
  __socket : Z;
  __local_addr : string;
  __remote_addr : string
}.

(** [const std::string unknown_addr = "?"] of [UDPConnection]. *)
Definition unknown_addr : string := "?".

(** [UDPConnectionImpl(resolved, dialing)], the sending side. *)
Definition dialing_ctor (resolved : addrinfo) (dialing : string) : prog t :=
  socket ← invoke (sys_socket (ai_family resolved) (ai_socktype resolved)
                     (ai_protocol resolved));
  if decide (socket = -1) then
    msg ← invoke sys_strerror_errno;
    Throw (std_runtime_error
      ("UDPConnection::UDPConnection: unable to acquire socket - " +:+ msg))
  else
    rc ← invoke (sys_connect socket (ai_addr resolved) (ai_addrlen resolved));
    if decide (rc = -1) then
      msg ← invoke sys_strerror_errno;
      Throw (std_runtime_error
        ("UDPConnection::UDPConnection: unable to connect socket - " +:+ msg))
    else
      addr ← netaddr_socket socket;
      local ← eval (Expected.get addr);
      mret {| __socket := socket;
              __local_addr := "udp://" +:+ local;
              __remote_addr := dialing |}.

(** [UDPConnectionImpl(resolved)], the receiving side. *)
Definition listening_ctor (resolved : addrinfo) : prog t :=
  socket ← invoke (sys_socket (ai_family resolved) (ai_socktype resolved)
                     (ai_protocol resolved));
  if decide (socket = -1) then
    msg ← invoke sys_strerror_errno;
    Throw (std_runtime_error
      ("UDPConnection::UDPConnection: unable to acquire socket - " +:+ msg))
  else
    rc ← invoke (sys_bind socket (ai_addr resolved) (ai_addrlen resolved));
    if decide (rc = -1) then
      msg ← invoke sys_strerror_errno;
      Throw (std_runtime_error
        ("UDPConnection::UDPConnection: unable to bind socket - " +:+ msg))
    else
      addr ← netaddr (ai_addr resolved);
      local ← eval (Expected.get addr);
      mret {| __socket := socket;
              __local_addr := "udp://" +:+ local;
              __remote_addr := unknown_addr |}.

(** The class declares no destructor: the implicit one destroys the
    strings, the map and the mutex, and makes no call. *)
Definition dtor (c : t) : prog unit := mret tt.

Definition read_timeout (c : t) (t : Z) : prog unit :=
  rc ← invoke (sys_setsockopt (__socket c) SOL_SOCKET SO_RCVTIMEO
                 (timeval_of t));
  if decide (rc = -1) then
    msg ← invoke sys_strerror_errno;
    Throw (mk_exception ptr_to_runtime_error
      ("UDPConnection::read_timeout: unable to set read timeout - " +:+ msg))
  else mret tt.

Definition write_timeout (c : t) (t : Z) : prog unit :=
  rc ← invoke (sys_setsockopt (__socket c) SOL_SOCKET SO_SNDTIMEO
                 (timeval_of t));
  if decide (rc = -1) then
    msg ← invoke sys_strerror_errno;
    Throw (mk_exception ptr_to_runtime_error
      ("UDPConnection::read_timeout: unable to set write timeout - " +:+ msg))
  else mret tt.

Definition timeout (c : t) (t : Z) : prog unit :=
  read_timeout c t;; write_timeout c t.

Definition local_addr (c : t) : string := __local_addr c.
Definition remote_addr (c : t) : string := __remote_addr c.

(** [read(b, remote, t)]: [b] is the length of the buffer, [remote] the
    string the caller passes by reference; its value after the call is
    handed back with the result. *)
Definition read_from (c : t) (b : Z) (remote : string) (t : Z)
  : prog (Expected.t Z * string) :=
  '(result, revents) ← poll (__socket c) POLLIN t;
  if poll_failed result revents then
    msg ← invoke sys_strerror_errno;
    e ← unexpected runtime_error (std_runtime_error
          ("UDPConnection::read: failed to poll the socket - " +:+ msg));
    mret (e, remote)
  else if decide (result = 0) then
    e ← unexpected logic_error (std_logic_error
          "UDPConnection::read: timeout whilst polling the socket");
    mret (e, remote)
  else
    '(s, sas) ← invoke (sys_recvfrom (__socket c) b);
    if decide (s < 0) then
      msg ← invoke sys_strerror_errno;
      e ← unexpected runtime_error (std_runtime_error
            ("UDPConnection::read: unable to read - " +:+ msg));
      mret (e, remote)
    else
      from ← netaddr sas;
      remote' ← (if Expected.erred from then mret unknown_addr
                 else addr ← eval (Expected.get from);
                      mret ("udp://" +:+ addr));
      mret (Expected.of_value s, remote').

(** [read(b, remote)]. *)
Definition read_from_blocking (c : t) (b : Z) (remote : string)
  : prog (Expected.t Z * string) :=
  read_from c b remote (-1).

(** [read(b, t)]. *)
Definition read (c : t) (b : Z) (t : Z) : prog (Expected.t Z) :=
  if decide (__remote_addr c ≠ unknown_addr) then
    unexpected logic_error (std_logic_error
      "UDPConnection::read: reading from a sending UDP connection without addressee")
  else
    let whom := EmptyString in
    '(r, _) ← read_from c b whom t;
    mret r.

(** [read(b)]. *)
Definition read_blocking (c : t) (b : Z) : prog (Expected.t Z) :=
  read c b (-1).

(** [__resolve(remote)]. *)
Definition __resolve (remote : string) : prog (Expected.t addrinfo) :=
  invoke mutex_lock;;
  found ← invoke (remotes_find remote);
  match found with
  | Some second =>
      invoke mutex_unlock;;
      mret (Expected.of_value second)
  | None =>
      invoke mutex_unlock;;
      resolved ← resolve remote;
      if Expected.erred resolved then
        p ← eval (Expected.exception_ resolved);
        mret (Expected.of_exception_ptr p)
      else
        invoke mutex_lock;;
        v ← eval (Expected.get resolved);
        invoke (remotes_assign remote v);;
        invoke mutex_unlock;;
        v ← eval (Expected.get resolved);
        mret (Expected.of_value v)
  end.

(** [write(b, remote, t)]: [b] is the length of the buffer. *)
Definition write_to (c : t) (b : Z) (remote : string) (t : Z)
  : prog (Expected.t Z) :=
  resolved ← __resolve remote;
  if Expected.erred resolved then
    unexpected invalid_argument (std_invalid_argument
      ("UDPConnection::write: unable to resolve the given remote "
       +:+ dquote +:+ remote +:+ dquote))
  else
    '(result, revents) ← poll (__socket c) POLLOUT t;
    if poll_failed result revents then
      msg ← invoke sys_strerror_errno;
      unexpected runtime_error (std_runtime_error
        ("UDPConnection::writes: failed to poll the socket - " +:+ msg))
    else if decide (result = 0) then
      unexpected logic_error (std_logic_error
        "UDPConnection::write: timeout whilst polling the socket")
    else
      to ← eval (Expected.get resolved);
      s ← invoke (sys_sendto (__socket c) b (ai_addr to) (ai_addrlen to));
      if decide (s < 0) then
        msg ← invoke sys_strerror_errno;
        unexpected runtime_error (std_runtime_error
          ("UDPConnection::write: unable to write - " +:+ msg))
      else mret (Expected.of_value s).

(** [write(b, remote)]. *)
Definition write_to_blocking (c : t) (b : Z) (remote : string)
  : prog (Expected.t Z) :=
  write_to c b remote (-1).

(** [write(b, t)]. *)
Definition write (c : t) (b : Z) (t : Z) : prog (Expected.t Z) :=
  if decide (__remote_addr c = unknown_addr) then
    unexpected logic_error (std_logic_error
      "UDPConnection::write: writing to receiving UDP connection without addressee")
  else write_to c b (__remote_addr c) t.

(** [write(b)]. *)
Definition write_blocking (c : t) (b : Z) : prog (Expected.t Z) :=
  write c b (-1).
End UDPConnectionImpl.

(** [listen_udp(address)]. *)
Definition listen_udp (address : string) : prog UDPConnectionImpl.t :=
  r ← resolve address;
  resolved ← eval (Expected.get r);
  if decide (ai_socktype resolved ≠ SOCK_DGRAM) then
    Throw (std_runtime_error
      ("listen_udp: attempting to use a non-UDP socket on "
       +:+ dquote +:+ address +:+ dquote))
  else UDPConnectionImpl.listening_ctor resolved.

(** [dial_udp(address)]. *)
Definition dial_udp (address : string) : prog UDPConnectionImpl.t :=
  r ← resolve address;
  resolved ← eval (Expected.get r);
  if decide (ai_socktype resolved ≠ SOCK_DGRAM) then
    Throw (std_runtime_error
      ("dial_udp: attempting to use a non-UDP socket on "
       +:+ dquote +:+ address +:+ dquote))
  else UDPConnectionImpl.dialing_ctor resolved address.

(** ** [TCPConnectionImpl] *)

Module TCPConnectionImpl.
Record t := mk {
  __socket : Z;
  __local_addr : string;
  __remote_addr : string
}.

(** [TCPConnectionImpl(resolved)]: the member initialiser computes
    [__remote_addr] before the body creates the socket. *)
Definition ctor (resolved : addrinfo) : prog t :=
  addr ← netaddr (ai_addr resolved);
  remote ← eval (Expected.get addr);
  socket ← invoke (sys_socket (ai_family resolved) (ai_socktype resolved)
                     (ai_protocol resolved));
  if decide (socket = -1) then
    msg ← invoke sys_strerror_errno;
    Throw (std_runtime_error
      ("TCPConnection::TCPConnection: unable to acquire socket - " +:+ msg))
  else
    rc ← invoke (sys_connect socket (ai_addr resolved) (ai_addrlen resolved));
    if decide (rc < 0) then
      invoke (sys_close socket);;
      msg ← invoke sys_strerror_errno;
      Throw (std_runtime_error
        ("TCPConnection::TCPConnection: unable to connect socket - " +:+ msg))
    else
      addr ← netaddr_socket socket;
      local ← eval (Expected.get addr);
      mret {| __socket := socket;
              __local_addr := "tcp://" +:+ local;
              __remote_addr := "tcp://" +:+ remote |}.

(** [TCPConnectionImpl(socket, localaddr, remote)]. *)
Definition of_socket (socket : Z) (localaddr remote : string) : t :=
  {| __socket := socket;
     __local_addr := "tcp://" +:+ localaddr;
     __remote_addr := "tcp://" +:+ remote |}.

(** [~TCPConnectionImpl()]. *)
Definition dtor (c : t) : prog unit :=
  invoke (sys_close (__socket c));; mret tt.

Definition read_timeout (c : t) (t : Z) : prog unit :=
  rc ← invoke (sys_setsockopt (__socket c) SOL_SOCKET SO_RCVTIMEO
                 (timeval_of t));
  if decide (rc = -1) then
    msg ← invoke sys_strerror_errno;
    Throw (mk_exception ptr_to_runtime_error
      ("TCPConnection::read_timeout: unable to set read timeout - " +:+ msg))
  else mret tt.

Definition write_timeout (c : t) (t : Z) : prog unit :=
  rc ← invoke (sys_setsockopt (__socket c) SOL_SOCKET SO_SNDTIMEO
                 (timeval_of t));
  if decide (rc = -1) then
    msg ← invoke sys_strerror_errno;
    Throw (mk_exception ptr_to_runtime_error
      ("TCPConnection::read_timeout: unable to set write timeout - " +:+ msg))
  else mret tt.

Definition timeout (c : t) (t : Z) : prog unit :=
  read_timeout c t;; write_timeout c t.

Definition no_delay (c : t) (d : bool) : prog unit :=
  let opt := if d then 1 else 0 in
  rc ← invoke (sys_setsockopt (__socket c) SOL_TCP TCP_NODELAY (opt_int opt));
  if decide (rc = -1) then
    msg ← invoke sys_strerror_errno;
    Throw (mk_exception ptr_to_runtime_error
      ("TCPConnection::no_delay: unable to set NODELAY - " +:+ msg))
  else mret tt.

Definition local_addr (c : t) : string := __local_addr c.
Definition remote_addr (c : t) : string := __remote_addr c.

(** [read(b, t)]: [b] is the length of the buffer. *)
Definition read (c : t) (b : Z) (t : Z) : prog (Expected.t Z) :=
  '(result, revents) ← poll (__socket c) POLLIN t;
  if poll_failed result revents then
    msg ← invoke sys_strerror_errno;
    unexpected runtime_error (std_runtime_error
      ("TCPConnection::read: failed to poll the socket - " +:+ msg))
  else if decide (result = 0) then
    unexpected logic_error (std_logic_error
      "TCPConnection::read: timeout whilst polling the socket")
  else
    s ← invoke (sys_read (__socket c) b);
    if decide (s < 0) then
      msg ← invoke sys_strerror_errno;
      unexpected runtime_error (std_runtime_error
        ("TCPConnection::read: unable to read - " +:+ msg))
    else mret (Expected.of_value s).

(** [read(b)]. *)
Definition read_blocking (c : t) (b : Z) : prog (Expected.t Z) :=
  read c b (-1).

(** [write(b, t)]: [b] is the length of the buffer. *)
Definition write (c : t) (b : Z) (t : Z) : prog (Expected.t Z) :=
  '(result, revents) ← poll (__socket c) POLLOUT t;
  if poll_failed result revents then
    msg ← invoke sys_strerror_errno;
    unexpected runtime_error (std_runtime_error
      ("TCPConnection::write: failed to poll the socket - " +:+ msg))
  else if decide (result = 0) then
    unexpected logic_error (std_logic_error
      "TCPConnection::write: timeout whilst polling the socket")
  else
    s ← invoke (sys_write (__socket c) b);
    if decide (s < 0) then
      msg ← invoke sys_strerror_errno;
      unexpected runtime_error (std_runtime_error
        ("TCPConnection::write: unable to write - " +:+ msg))
    else mret (Expected.of_value s).

(** [write(b)]. *)
Definition write_blocking (c : t) (b : Z) : prog (Expected.t Z) :=
  write c b (-1).
End TCPConnectionImpl.

(** ** [TCPListenerImpl] *)

Module TCPListenerImpl.
Record t := mk {
  __addr : addrinfo;
  __timeout : Z;
  __socket : Z
}.

(** [const int kDefaultListenBacklog = 512] of [TCPListener]. *)
Definition kDefaultListenBacklog : Z := 512.

(** [TCPListenerImpl(resolved)]. *)
Definition ctor (resolved : addrinfo) : prog t :=
  socket ← invoke (sys_socket (ai_family resolved) (ai_socktype resolved)
                     (ai_protocol resolved));
  if decide (socket = -1) then
    msg ← invoke sys_strerror_errno;
    Throw (std_runtime_error
      ("TCPListener::TCPListener: unable to acquire socket - " +:+ msg))
  else
    rc ← invoke (sys_setsockopt socket SOL_SOCKET SO_REUSEADDR (opt_int 1));
    if decide (rc = -1) then
      invoke (sys_close socket);;
      msg ← invoke sys_strerror_errno;
      Throw (std_runtime_error
        ("TCPListener::TCPListener: unable to claim socket - " +:+ msg))
    else
      rc ← invoke (sys_bind socket (ai_addr resolved) (ai_addrlen resolved));
      if decide (rc = -1) then
        invoke (sys_close socket);;
        msg ← invoke sys_strerror_errno;
        Throw (std_runtime_error
          ("TCPListener::TCPListener: unable to bind socket - " +:+ msg))
      else
        rc ← invoke (sys_listen socket kDefaultListenBacklog);
        if decide (rc = -1) then
          invoke (sys_close socket);;
          msg ← invoke sys_strerror_errno;
          Throw (std_runtime_error
            ("TCPListener::TCPListener: unable to listen - " +:+ msg))
        else
          mret {| __addr := resolved; __timeout := -1; __socket := socket |}.

(** [~TCPListenerImpl()]. *)
Definition dtor (l : t) : prog unit :=
  invoke (sys_close (__socket l));; mret tt.

(** [accept(t)]. *)
Definition accept (l : t) (t : Z)
  : prog (Expected.t TCPConnectionImpl.t) :=
  '(result, revents) ← poll (__socket l) POLLIN t;
  if poll_failed result revents then
    msg ← invoke sys_strerror_errno;
    unexpected runtime_error (std_runtime_error
      ("TCPListener::accept: failed to poll the bound-socket - " +:+ msg))
  else
    '(socket, sas) ← invoke (sys_accept (__socket l));
    if decide (socket = -1) then
      msg ← invoke sys_strerror_errno;
      unexpected runtime_error (std_runtime_error
        ("TCPListener::accept: failed to accept a new connection - " +:+ msg))
    else
      local_addr ← netaddr (ai_addr (__addr l));
      if Expected.erred local_addr then
        p ← eval (Expected.exception_ local_addr);
        mret (Expected.of_exception_ptr p)
      else
        remote_addr ← netaddr sas;
        if Expected.erred remote_addr then
          p ← eval (Expected.exception_ remote_addr);
          mret (Expected.of_exception_ptr p)
        else
          local ← eval (Expected.get local_addr);
          remote ← eval (Expected.get remote_addr);
          mret (Expected.of_value
                  (TCPConnectionImpl.of_socket socket local remote)).

(** [accept()]. *)
Definition accept_default (l : t) : prog (Expected.t TCPConnectionImpl.t) :=
  accept l (__timeout l).

(** [timeout(t)]. *)
Definition timeout (l : t) (d : Z) : t :=
  {| __addr := __addr l; __timeout := d; __socket := __socket l |}.
End TCPListenerImpl.

(** [listen_tcp(address)]. *)
Definition listen_tcp (address : string) : prog TCPListenerImpl.t :=
  r ← resolve address;
  resolved ← eval (Expected.get r);
  if decide (ai_socktype resolved ≠ SOCK_STREAM) then
    Throw (std_runtime_error
      ("listen_tcp: attempting to use a non-TCP socket on "
       +:+ dquote +:+ address +:+ dquote))
  else TCPListenerImpl.ctor resolved.

(** The destruction of what [listen_tcp] hands back.  The
    [std::unique_ptr<TCPListener>] deletes the object through a
    [TCPListener*], and [TCPListener] declares no virtual destructor:
    [~TCPListenerImpl] is not what runs, no call is made, and the
    deletion has undefined behaviour. *)
Definition delete_listener (l : TCPListenerImpl.t) : prog unit := Undef.

(** [dial_tcp(address)]. *)
Definition dial_tcp (address : string) : prog TCPConnectionImpl.t :=
  r ← resolve address;
  resolved ← eval (Expected.get r);
  if decide (ai_socktype resolved ≠ SOCK_STREAM) then
    Throw (std_runtime_error
      ("dial_tcp: attempting to use a non-TCP socket on "
       +:+ dquote +:+ address +:+ dquote))
  else TCPConnectionImpl.ctor resolved.

(** ** Executions *)

(** One call as it happened: the request and what it handed back. *)
Inductive event :=
| Event {R : Type} (c : call R) (r : R).

(** The environment: what the [n]-th call of an execution hands back. *)
Definition oracle := nat -> forall (R : Type), call R -> R.

(** What an execution threads: the number of calls made so far, and the
    member [__remotes] of the UDP connection at hand. *)
Record world := mk_world {
  clock : nat;
  remotes : gmap string addrinfo
}.

(** The map answers its own lookups; everything else is the
    environment's. *)
Definition respond (os : oracle) (w : world) {R : Type} (c : call R) : R :=
  match c in call R return R -> R with
  | remotes_find key => fun _ => remotes w !! key
  | _ => fun r => r
  end (os (clock w) R c).

Definition advance (w : world) {R : Type} (c : call R) : world :=
  {| clock := S (clock w);
     remotes := match c with
                | remotes_assign key v => <[key := v]> (remotes w)
                | _ => remotes w
                end |}.

Fixpoint run {A : Type} (os : oracle) (p : prog A) (w : world)
  : outcome A * world * list event :=
  match p with
  | Ret a => (Returns a, w, [])
  | Throw e => (Throws e, w, [])
  | Undef => (Undefined, w, [])
  | Call c k =>
      let r := respond os w c in
      let '(o, w', tr) := run os (k r) (advance w c) in
      (o, w', Event c r :: tr)
  end.

Definition result_of {A : Type} (x : outcome A * world * list event) : outcome A :=
  x.1.1.
Definition world_of {A : Type} (x : outcome A * world * list event) : world :=
  x.1.2.
Definition trace_of {A : Type} (x : outcome A * world * list event) : list event :=
  x.2.

(** The call kinds the statements below tell apart. *)
Definition is_close (fd : Z) (ev : event) : bool :=
  match ev with
  | Event (sys_close fd') _ => bool_decide (fd' = fd)
  | _ => false
  end.

Definition is_socket_created (fd : Z) (ev : event) : bool :=
  match ev with
  | Event (sys_socket _ _ _) r => bool_decide (r = fd)
  | Event (sys_accept _) r => bool_decide (r.1 = fd)
  | _ => false
  end.

Definition count (f : event -> bool) (tr : list event) : nat :=
  length (filter (fun ev => f ev = true) tr).

(** Every access to [__remotes] happens with [__remotes_lock] held, the
    lock is never taken twice, and it is released in the end.  [held]
    tells whether the lock is held when the trace begins. *)
Fixpoint guarded (held : bool) (tr : list event) : bool :=
  match tr with
  | [] => negb held
  | Event mutex_lock _ :: tr' => negb held && guarded true tr'
  | Event mutex_unlock _ :: tr' => held && guarded false tr'
  | Event (remotes_find _) _ :: tr' => held && guarded held tr'
  | Event (remotes_assign _ _) _ :: tr' => held && guarded held tr'
  | _ :: tr' => guarded held tr'
  end.

(** A program makes only calls that [ok] admits, whatever it is handed
    back. *)
Fixpoint only_calls {A : Type} (ok : forall (R : Type), call R -> bool)
    (p : prog A) : Prop :=
  match p with
  | Call c k => ok _ c = true /\ forall r, only_calls ok (k r)
  | _ => True
  end.

Definition os_call {R : Type} (c : call R) : bool :=
  match c with
  | mutex_lock | mutex_unlock | remotes_find _ | remotes_assign _ _ => false
  | _ => true
  end.

(** The name of a call, for reading traces. *)
Definition name_of {R : Type} (c : call R) : string :=
  match c with
  | sys_getaddrinfo _ _ _ _ => "getaddrinfo"
  | sys_gai_strerror _ => "gai_strerror"
  | sys_strerror_errno => "strerror"
  | sys_inet_ntop _ _ => "inet_ntop"
  | sys_socket _ _ _ => "socket"
  | sys_connect _ _ _ => "connect"
  | sys_bind _ _ _ => "bind"
  | sys_listen _ _ => "listen"
  | sys_setsockopt _ _ _ _ => "setsockopt"
  | sys_close _ => "close"
  | sys_poll _ _ _ => "poll"
  | sys_read _ _ => "read"
  | sys_write _ _ => "write"
  | sys_recvfrom _ _ => "recvfrom"
  | sys_sendto _ _ _ _ => "sendto"
  | sys_accept _ => "accept"
  | sys_getsockname _ => "getsockname"
  | mutex_lock => "lock"
  | mutex_unlock => "unlock"
  | remotes_find _ => "find"
  | remotes_assign _ _ => "assign"
  end.

Definition names (tr : list event) : list string :=
  map (fun ev => match ev with Event c _ => name_of c end) tr.

(** ** Usage scenarios and environments *)

Module Scenario.

(** The port of a socket address object as the operating system means
    it. *)
Definition port_of (s : sockaddr) : Z := ntohs (sin_port s).

(** 127.0.0.1 with the given port field. *)
Definition loopback (port_field : Z) : sockaddr :=
  mk_sockaddr AF_INET port_field [127; 0; 0; 1].

(** Port 5432 is stored as the bytes 0x15 0x38, which a little-endian
    16-bit load reads as 0x3815; port 40000 (0x9c40) reads as 0x409c. *)
Definition port_5432 : Z := 14357.
Definition port_40000 : Z := 16540.

(** An environment in which every call succeeds: names resolve to
    127.0.0.1:5432 (allocated at [0x55555556ffe0]), [socket] hands back
    descriptor 3, [accept] descriptor 5 with a peer at 127.0.0.1:40000,
    polls report the descriptor ready, transfers move 6 bytes. *)
Definition os_ok : oracle := fun _ R c =>
  match c in call R return R with
  | sys_getaddrinfo _ _ _ socktype =>
      (0, mk_addrinfo AF_INET socktype 0
            (mk_sockaddr_ptr 0x55555556ffe0 (loopback port_5432)) 16)
  | sys_gai_strerror _ => "Name or service not known"
  | sys_strerror_errno => "Success"
  | sys_inet_ntop _ _ => Some "127.0.0.1"
  | sys_socket _ _ _ => 3
  | sys_connect _ _ _ | sys_bind _ _ _ | sys_listen _ _
  | sys_setsockopt _ _ _ _ | sys_close _ => 0
  | sys_poll _ events _ => (1, events)
  | sys_read _ _ | sys_write _ _ | sys_sendto _ _ _ _ => 6
  | sys_recvfrom _ _ =>
      (6, mk_sockaddr_ptr 0x7ffd5c3a1e40 (loopback port_40000))
  | sys_accept _ =>
      (5, mk_sockaddr_ptr 0x7ffd5c3a1d90 (loopback port_40000))
  | sys_getsockname _ =>
      (0, mk_sockaddr_ptr 0x7ffd5c3a1e40 (loopback port_40000))
  | mutex_lock | mutex_unlock | remotes_assign _ _ => tt
  | remotes_find _ => None
  end.

(** As [os_ok], but [bind] and [connect] fail. *)
Definition os_address_in_use : oracle := fun n R c =>
  match c in call R return R with
  | sys_bind _ _ _ => -1
  | sys_connect _ _ _ => -1
  | sys_strerror_errno => "Address already in use"
  | c' => os_ok n _ c'
  end.

(** As [os_ok], but names do not resolve. *)
Definition os_no_such_host : oracle := fun n R c =>
  match c in call R return R with
  | sys_getaddrinfo _ _ _ socktype =>
      (-2, mk_addrinfo 0 0 0 (mk_sockaddr_ptr 0 (mk_sockaddr 0 0 [])) 0)
  | c' => os_ok n _ c'
  end.

(** As [os_ok], but the second resolution (the sixth call of
    [tcp_pair]) allocates its result at [0x555555570020] and the second
    [socket] hands back descriptor 4. *)
Definition os_two_allocations : oracle := fun n R c =>
  match c in call R return R with
  | sys_getaddrinfo _ _ _ socktype =>
      (0, mk_addrinfo AF_INET socktype 0
            (mk_sockaddr_ptr
               (if bool_decide (n = 0%nat) then 0x55555556ffe0
                else 0x555555570020)
               (loopback port_5432)) 16)
  | sys_socket _ _ _ => if bool_decide (n = 1%nat) then 3 else 4
  | c' => os_ok n _ c'
  end.

Definition fresh : world := {| clock := 0; remotes := ∅ |}.

(** The section "which has the client's address as its remote_addr" of
    [tests/main.cpp]: listen, dial, accept. *)
Definition tcp_pair (addr : string) (t : Z)
  : prog (TCPConnectionImpl.t * Expected.t TCPConnectionImpl.t) :=
  listener ← listen_tcp addr;
  conn ← dial_tcp addr;
  accepted ← TCPListenerImpl.accept listener t;
  mret (conn, accepted).

(** [require_matching_addresses(local, remote)] of [tests/main.cpp]. *)
Definition matching_addresses (local remote : TCPConnectionImpl.t) : Prop :=
  TCPConnectionImpl.remote_addr local = TCPConnectionImpl.local_addr remote
  /\ TCPConnectionImpl.local_addr local = TCPConnectionImpl.remote_addr remote.

(** A connection from creation to destruction. *)
Definition udp_listening_lifetime (addr : string) : prog unit :=
  c ← listen_udp addr; UDPConnectionImpl.dtor c.

Definition udp_dialing_lifetime (addr : string) : prog unit :=
  c ← dial_udp addr; UDPConnectionImpl.dtor c.

Definition tcp_lifetime (addr : string) : prog unit :=
  c ← dial_tcp addr; TCPConnectionImpl.dtor c.

(** A listener from creation to destruction: what [listen_tcp] hands
    back goes out of scope. *)
Definition tcp_listener_lifetime (addr : string) : prog unit :=
  l ← listen_tcp addr; delete_listener l.

(** A bound UDP connection, as [listen_udp] leaves it. *)
Definition listening : UDPConnectionImpl.t :=
  {| UDPConnectionImpl.__socket := 3;
     UDPConnectionImpl.__local_addr := "udp://127.0.0.1:9999";
     UDPConnectionImpl.__remote_addr := UDPConnectionImpl.unknown_addr |}.

(** Two addressed writes of 6 bytes to the same remote, one after the
    other, as the server of [tests/main.cpp] answers a client. *)
Definition udp_write_twice (c : UDPConnectionImpl.t) (remote : string)
  : prog (Expected.t Z * Expected.t Z) :=
  first ← UDPConnectionImpl.write_to_blocking c 6 remote;
  second ← UDPConnectionImpl.write_to_blocking c 6 remote;
  mret (first, second).

End Scenario.

(** The protocol token of an address: what precedes the first [://], read
    as a C string. *)
Definition protocol_of (address : string) : option string :=
  match String.index 0 "://" address with
  | Some i => Some (c_str (String.substring 0 i address))
  | None => None
  end.

(** ** Notions the statements use *)

(** When the first call of a program is a readiness wait: the descriptor,
    the events and the timeout it waits with, and the program that remains
    once the wait is handed the answer [r] (the return value of [poll] and
    [revents]). *)
Definition after_poll {A : Type} (p : prog A) (r : Z * Z)
  : option (Z * Z * Z * prog A) :=
  match p with
  | Call c k =>
      match c in call R return (R -> prog A) -> option (Z * Z * Z * prog A) with
      | sys_poll fd events timeout => fun k => Some (fd, events, timeout, k r)
      | _ => fun _ => None
      end k
  | _ => None
  end.

(** A program begins with the readiness wait on [fd] and, when that wait
    reports that the deadline elapsed with no event, ends at once in a
    [std::logic_error] held by the result, making no further call. *)
Definition times_out {A : Type} (fd events t : Z) (p : prog (Expected.t A))
  : Prop :=
  forall revents, Z.land revents POLLERR = 0 ->
    exists msg,
      after_poll p (0, revents) =
        Some (fd, events, to_int t,
              Ret (Expected.of_exception_ptr (Some (std_logic_error msg)))).


(** The world after the three calls (lock, find, unlock) with which
    [__resolve] consults the cache. *)
Definition after_lookup (w : world) : world :=
  {| clock := S (S (S (clock w))); remotes := remotes w |}.

(** Every call but [close]. *)
Definition not_close {R : Type} (c : call R) : bool :=
  match c with
  | sys_close _ => false
  | _ => true
  end.

(** The calls with which a write waits for the descriptor and sends on
    it: [poll], [sendto], and [strerror] for the text of a failure. *)
Definition wait_or_send {R : Type} (c : call R) : bool :=
  match c with
  | sys_poll _ _ _ | sys_sendto _ _ _ _ | sys_strerror_errno => true
  | _ => false
  end.

(** The call of an event is one that [ok] admits. *)
Definition admitted_by (ok : forall (R : Type), call R -> bool) (ev : event)
  : bool :=
  match ev with Event c _ => ok _ c end.

(** * Properties *)

(** ** [Expected<T>] *)

Section ExpectedFacts.
Context {T : Type}.
Implicit Types (x y : Expected.t T) (v w : T) (e : exception).

(** [unexpected] stores its argument only when the static type it is
    called with is the dynamic type of the argument, and then stores it
    as it is; otherwise it refuses, and nothing sliced is ever stored. *)
Lemma unexpected_stores E e :
  Expected.unexpected (T := T) E e =
    if decide (dyn_type e = E)
    then Returns (Expected.of_exception_ptr (Some e))
    else Throws (std_invalid_argument "Expected::unexpected: slicing detected").
Proof.
  unfold Expected.unexpected, make_exception_ptr.
  destruct (decide (dyn_type e = E)) as [<-|]; [|reflexivity].
  destruct e. reflexivity.
Qed.

(** Whatever a program obtains is either a value with the tag cleared,
    or an exception pointer with the tag set. *)
Lemma built_from_shape o x :
  Expected.built_from o x ->
  x = match o with
      | inl v => Expected.of_value v
      | inr p => Expected.of_exception_ptr p
      end.
Proof.
  induction 1 as [v | E e x Hu | p | o x y Hx IH Hc
                  | o x residue y Hx IH Hm].
  - reflexivity.
  - rewrite unexpected_stores in Hu.
    destruct (decide (dyn_type e = E)); congruence.
  - reflexivity.
  - subst x. destruct o; injection Hc as <-; reflexivity.
  - subst x. destruct o; injection Hm as <-; reflexivity.
Qed.

Lemma built_from_tag_matches o x :
  Expected.built_from o x -> Expected.tag_matches x.
Proof.
  intros H. rewrite (built_from_shape _ _ H). destruct o; reflexivity.
Qed.

(** Copying what a program obtained reads the live member only. *)
Lemma copy_built o x :
  Expected.built_from o x -> Expected.copy x = Returns x.
Proof.
  intros H. rewrite (built_from_shape _ _ H). destruct o; reflexivity.
Qed.

(** Read on their own, the two branches of [swap] with [*this] holding a
    value would exchange the contents and the tags. *)
Lemma swap_branch_value_value v w :
  Expected.swap_branch (Expected.of_value v) (Expected.of_value w)
  = Expected.Swapped (Expected.of_value w) (Expected.of_value v).
Proof. reflexivity. Qed.

Lemma swap_branch_value_error v (p : exception_ptr) :
  Expected.swap_branch (Expected.of_value v) (Expected.of_exception_ptr p)
  = Expected.Swapped (Expected.of_exception_ptr p) (Expected.of_value v).
Proof. reflexivity. Qed.

(** As the member is one body, no call of [swap] compiles, whatever the
    two objects hold. *)
Lemma swap_never_compiles x y :
  exists d, Expected.swap x y = Expected.SwapIllFormed d.
Proof.
  unfold Expected.swap.
  destruct (Expected.swap_branch x y); eexists; reflexivity.
Qed.

(** C8: for every [Expected<T>] a program can obtain, [erred()] tells
    which member of the union is live and [get()] never reads the other
    one.  When [erred()] is false, [get()] returns the stored value.
    When it is true and the stored pointer is not null, [get()] throws
    the very exception that was stored, with its dynamic type; for an
    object built by [unexpected] that is the argument as it was passed.
    When the stored pointer is null (the object was constructed from a
    null pointer, or an errored object was moved from), no error is
    carried and [get()] is undefined. *)
Theorem Expected_get_erred o x :
  Expected.built_from o x ->
  Expected.tag_matches x /\
  match o with
  | inl v =>
      Expected.erred x = false /\ Expected.get x = Returns v
  | inr (Some e) =>
      Expected.erred x = true /\ Expected.get x = Throws e /\
      forall e', Expected.get x = Throws e' -> dyn_type e' = dyn_type e
  | inr None =>
      Expected.erred x = true /\ Expected.get x = Undefined
  end.
Proof.
  intros H. split; [exact (built_from_tag_matches _ _ H)|].
  rewrite (built_from_shape _ _ H).
  destruct o as [v | [e|]]; cbn; repeat split.
  intros e' [= ->]. reflexivity.
Qed.

(** C10: [a.swap(b)] with [a] holding an error reaches, for [b] holding
    a value, the statement [rhs.wap( *this)] and, for [b] holding an
    error, the statement [__exception.swap(rhs.swap)]; neither names
    anything that exists, so neither exchange is performed. *)
Theorem swap_from_error_ill_formed (p q : exception_ptr) v :
  (exists d, Expected.swap (Expected.of_exception_ptr p) (Expected.of_value v)
             = Expected.SwapIllFormed d)
  /\ (exists d, Expected.swap (T := T) (Expected.of_exception_ptr p)
                  (Expected.of_exception_ptr q)
                = Expected.SwapIllFormed d).
Proof. split; eexists; reflexivity. Qed.

End ExpectedFacts.

Lemma Expected_get_erred_witness :
  let e := std_runtime_error "resolve: unable to resolve" in
  let x := Expected.of_exception_ptr (T := Z) (Some e) in
  Expected.built_from (inr (Some e)) x /\
  Expected.tag_matches x /\
  Expected.erred x = true /\ Expected.get x = Throws e /\
  forall e', Expected.get x = Throws e' -> dyn_type e' = dyn_type e.
Proof.
  cbv zeta.
  assert (Hb : Expected.built_from (T := Z)
                 (inr (Some (std_runtime_error "resolve: unable to resolve")))
                 (Expected.of_exception_ptr
                    (Some (std_runtime_error "resolve: unable to resolve")))).
  { apply (Expected.built_unexpected runtime_error). reflexivity. }
  split; [exact Hb|].
  exact (Expected_get_erred _ _ Hb).
Defined.

(** An [Expected<int>] constructed from a null [std::exception_ptr]
    reports an error and carries none: [get()] neither returns a value
    nor throws. *)
Lemma Expected_get_null_counterexample :
  let x := Expected.of_exception_ptr (T := Z) None in
  Expected.built_from (inr None) x /\
  Expected.erred x = true /\
  Expected.get x = Undefined /\
  ~ (exists e, Expected.get x = Throws e).
Proof.
  cbv zeta. split; [apply Expected.built_exception_ptr|].
  split; [reflexivity|]. split; [reflexivity|].
  intros [e He]. discriminate He.
Qed.

(** Called with a static type that is not the dynamic type of its
    argument, [unexpected] throws instead of storing a sliced copy. *)
Example unexpected_refuses_to_slice :
  Expected.unexpected (T := Z) logic_error
    (std_invalid_argument "no such remote")
  = Throws (std_invalid_argument "Expected::unexpected: slicing detected").
Proof. reflexivity. Qed.

(** ** Strings and [Snipper] *)

Lemma prefix_length (d s : string) :
  String.prefix d s = true -> (String.length d <= String.length s)%nat.
Proof.
  revert s. induction d as [|c d IH]; intros [|c' s]; cbn; try lia; try discriminate.
  destruct (Ascii.ascii_dec c c'); [|discriminate].
  intros H. apply IH in H. lia.
Qed.

Lemma index_bound (d s : string) (i : nat) :
  String.index 0 d s = Some i -> (i + String.length d <= String.length s)%nat.
Proof.
  revert i. induction s as [|c s IH]; intros i.
  - destruct d; cbn; [|discriminate]. intros [= ?]; subst. lia.
  - cbn [String.index String.length].
    destruct (String.prefix d (String c s)) eqn:Hp.
    + intros [= ?]; subst. apply prefix_length in Hp. cbn in Hp. lia.
    + destruct (String.index 0 d s) as [j|]; [|discriminate].
      intros [= ?]; subst. specialize (IH j eq_refl). lia.
Qed.

Lemma substring_all (s : string) :
  String.substring 0 (String.length s) s = s.
Proof. induction s as [|c s IH]; cbn; [reflexivity | now rewrite IH]. Qed.

Lemma substring_after_prefix (p s : string) :
  String.substring (String.length p)
    (String.length (p +:+ s) - String.length p) (p +:+ s) = s.
Proof.
  induction p as [|a p IH].
  - change (EmptyString +:+ s) with s. cbn [String.length].
    rewrite Nat.sub_0_r. apply substring_all.
  - change (String a p +:+ s) with (String a (p +:+ s)). exact IH.
Qed.

Lemma to_int_small (z : Z) : 0 <= z < 2 ^ 31 -> to_int z = z.
Proof.
  intros H. unfold to_int.
  rewrite Z.mod_small by lia. lia.
Qed.

Lemma substr_in_range (s : string) (pos n : Z) :
  0 <= pos <= str_length s -> 0 <= n ->
  substr s pos n =
    Returns (String.substring (Z.to_nat pos)
               (Z.to_nat (Z.min n (str_length s - pos))) s).
Proof.
  intros Hp Hn. unfold substr.
  destruct (str_length s <? pos) eqn:E; [apply Z.ltb_lt in E; lia | reflexivity].
Qed.

(** A delimiter that does not occur: the null pointer comes back and the
    snipper is left as it was. *)
Lemma snip_missing (s : Snipper.t) (d : string) :
  String.index 0 d (Snipper.__str s) = None ->
  Snipper.snip s d = Returns (None, s).
Proof.
  intros H. unfold Snipper.snip, find. rewrite H. reflexivity.
Qed.

(** A delimiter that first occurs at [i], for [i] below [2^31]: the part
    before it comes back and the part after it remains. *)
Lemma snip_found (s : Snipper.t) (d : string) (i : nat) :
  String.index 0 d (Snipper.__str s) = Some i ->
  Z.of_nat i < 2 ^ 31 ->
  Z.of_nat (i + String.length d) < 2 ^ 64 ->
  Snipper.snip s d =
    Returns (Some (c_str (String.substring 0 i (Snipper.__str s))),
             {| Snipper.__str :=
                  String.substring (i + String.length d)
                    (String.length (Snipper.__str s) - (i + String.length d))
                    (Snipper.__str s);
                Snipper.__snipped :=
                  Snipper.__snipped s
                  ++ [String.substring 0 i (Snipper.__str s)] |}).
Proof.
  intros H Hi Hd. pose proof (index_bound _ _ _ H) as Hb.
  unfold Snipper.snip, find. rewrite H.
  rewrite to_int_small by lia.
  assert (Hs : to_size_t (Z.of_nat i) = Z.of_nat i).
  { unfold to_size_t. apply Z.mod_small. lia. }
  assert (Hs' : to_size_t (Z.of_nat i + str_length d)
                = Z.of_nat (i + String.length d)).
  { unfold to_size_t, str_length. rewrite Z.mod_small by lia. lia. }
  rewrite Hs, Hs'.
  destruct (decide (Z.of_nat i = npos)) as [E|_]; [unfold npos in E; lia|].
  rewrite !substr_in_range by (unfold str_length; lia).
  unfold str_length. cbn [mbind outcome_bind mret outcome_ret].
  repeat f_equal.
  - rewrite Z.sub_0_r, Z.min_l by lia. now rewrite Nat2Z.id.
  - now rewrite Nat2Z.id.
  - lia.
  - rewrite Z.sub_0_r, Z.min_l by lia. now rewrite Nat2Z.id.
Qed.

(** Whether the second delimiter occurs or not, the second snip of an
    address shorter than [2^31] comes back. *)
Lemma snip_returns (s : Snipper.t) (d : string) :
  str_length (Snipper.__str s) < 2 ^ 31 ->
  exists r, Snipper.snip s d = Returns r /\
    (r.1 = None -> r.2 = s).
Proof.
  intros Hlen. destruct (String.index 0 d (Snipper.__str s)) as [i|] eqn:E.
  - pose proof (index_bound _ _ _ E) as Hb. unfold str_length in Hlen.
    eexists. split; [apply (snip_found _ _ _ E); lia|]. discriminate.
  - eexists. split; [apply (snip_missing _ _ E)|]. reflexivity.
Qed.

(** ** [resolve] *)

Lemma substring_length_le (s : string) (n m : nat) :
  (String.length (String.substring n m s) <= String.length s)%nat.
Proof.
  revert n m. induction s as [|c s IH]; intros [|n] [|m]; cbn; try lia.
  - specialize (IH 0%nat m). lia.
  - specialize (IH n 0%nat). lia.
  - specialize (IH n (S m)). lia.
Qed.

(** An address whose protocol token is neither [tcp] nor [udp] is refused
    with a [std::runtime_error] before any call is made. *)
Lemma resolve_unsupported_protocol (address protocol : string) :
  protocol_of address = Some protocol ->
  protocol <> "tcp" -> protocol <> "udp" ->
  str_length address < 2 ^ 31 ->
  exists msg, resolve address =
    Ret (Expected.of_exception_ptr (Some (std_runtime_error msg))).
Proof.
  unfold protocol_of. intros Hp Htcp Hudp Hlen.
  destruct (String.index 0 "://" address) as [i|] eqn:E; [|discriminate].
  injection Hp as Hp.
  pose proof (index_bound _ _ _ E) as Hb. unfold str_length in Hlen.
  unfold resolve.
  rewrite (snip_found (Snipper.new address 3) "://" i E) by (cbn in *; lia).
  cbn [eval mbind prog_bind bind Snipper.__str Snipper.new].
  match goal with |- context [Snipper.snip ?s ":"] =>
    destruct (snip_returns s ":") as ([hostname rest] & -> & _)
  end.
  { cbn [Snipper.__str]. unfold str_length.
    pose proof (substring_length_le address (i + String.length "://")
                  (String.length address - (i + String.length "://"))).
    lia. }
  cbn [eval mbind prog_bind bind]. rewrite Hp.
  destruct (decide (protocol = "tcp")); [contradiction|].
  destruct (decide (protocol = "udp")); [contradiction|].
  eexists. reflexivity.
Qed.

(** C7: an address without the [://] separator makes the first snip hand
    back the null pointer, from which [resolve] constructs a
    [std::string]: the behaviour is undefined, and no resolution error is
    handed back. *)
Theorem resolve_without_separator (address : string) :
  String.index 0 "://" address = None ->
  str_length address < 2 ^ 31 ->
  resolve address = Undef.
Proof.
  intros E Hlen. unfold resolve.
  rewrite (snip_missing (Snipper.new address 3) "://" E).
  cbn [eval mbind prog_bind bind].
  destruct (snip_returns (Snipper.new address 3) ":" Hlen)
    as ([hostname rest] & -> & _).
  reflexivity.
Qed.

Lemma resolve_without_separator_witness :
  String.index 0 "://" "localhost:80" = None /\
  str_length "localhost:80" < 2 ^ 31 /\
  resolve "localhost:80" = Undef.
Proof.
  split; [reflexivity|]. split; [reflexivity|].
  apply (resolve_without_separator "localhost:80"); reflexivity.
Defined.

(** C3: for [<proto>://<host>] with a non-empty host that no colon
    follows, the second snip finds no colon and hands back the null
    pointer, so the whole host is what remains: name resolution is called
    with a null host name and with the host as the service, not with the
    host and the service [80]. *)
Theorem resolve_without_port (proto host : string) (socktype : Z) :
  (proto = "tcp" /\ socktype = SOCK_STREAM) \/
  (proto = "udp" /\ socktype = SOCK_DGRAM) ->
  host <> EmptyString ->
  String.index 0 ":" host = None ->
  exists k,
    resolve (proto +:+ "://" +:+ host) =
      Call (sys_getaddrinfo None (c_str host) AF_UNSPEC socktype) k.
Proof.
  intros Hproto Hne Hcolon.
  assert (Hi : String.index 0 "://" (proto +:+ "://" +:+ host) = Some 3%nat).
  { destruct Hproto as [[-> _] | [-> _]]; destruct host; reflexivity. }
  unfold resolve.
  rewrite (snip_found (Snipper.new (proto +:+ "://" +:+ host) 3) "://" 3 Hi)
    by (cbn; lia).
  cbn [eval mbind prog_bind bind Snipper.__str Snipper.new].
  assert (Hrest : String.substring (3 + String.length "://")
            (String.length (proto +:+ "://" +:+ host)
             - (3 + String.length "://")) (proto +:+ "://" +:+ host) = host).
  { destruct Hproto as [[-> _] | [-> _]].
    - exact (substring_after_prefix "tcp://" host).
    - exact (substring_after_prefix "udp://" host). }
  rewrite Hrest.
  rewrite (snip_missing {| Snipper.__str := host |} ":" Hcolon).
  cbn [eval mbind prog_bind bind].
  unfold Snipper.remaining_or. cbn [Snipper.__str].
  destruct (decide (host = EmptyString)) as [|_]; [contradiction|].
  destruct Hproto as [[-> ->] | [-> ->]]; eexists; reflexivity.
Qed.

Lemma resolve_without_port_witness :
  (("tcp" = "tcp" /\ SOCK_STREAM = SOCK_STREAM) \/
   ("tcp" = "udp" /\ SOCK_STREAM = SOCK_DGRAM)) /\
  "localhost" <> EmptyString /\
  String.index 0 ":" "localhost" = None /\
  exists k,
    resolve "tcp://localhost" =
      Call (sys_getaddrinfo None "localhost" AF_UNSPEC SOCK_STREAM) k.
Proof.
  split; [left; split; reflexivity|].
  split; [discriminate|]. split; [reflexivity|].
  apply (resolve_without_port "tcp" "localhost" SOCK_STREAM);
    [left; split; reflexivity | discriminate | reflexivity].
Defined.

(** ** Executions *)

Lemma run_bind {A B : Type} (os : oracle) (p : prog A) (f : A -> prog B)
    (w : world) :
  run os (p ≫= f) w =
    match run os p w with
    | (Returns a, w1, tr1) =>
        let '(o, w2, tr2) := run os (f a) w1 in (o, w2, (tr1 ++ tr2)%list)
    | (Throws e, w1, tr1) => (Throws e, w1, tr1)
    | (Undefined, w1, tr1) => (Undefined, w1, tr1)
    end.
Proof.
  change (p ≫= f) with (bind p f).
  revert w. induction p as [a | e | | R c k IH]; intros w; cbn [bind run].
  - destruct (run os (f a) w) as [[o w2] tr2]. reflexivity.
  - reflexivity.
  - reflexivity.
  - rewrite IH.
    destruct (run os (k (respond os w c)) (advance w c)) as [[[a | e |] w1] tr1];
      [|reflexivity..].
    destruct (run os (f a) w1) as [[o w2] tr2]. reflexivity.
Qed.

(** Operating-system calls leave [__remotes] alone and neither take nor
    release its lock. *)
Lemma only_os_calls_run {A : Type} (os : oracle) (p : prog A) (w : world) :
  only_calls (@os_call) p ->
  remotes (world_of (run os p w)) = remotes w /\
  (forall held tr,
     guarded held (trace_of (run os p w) ++ tr)%list = guarded held tr).
Proof.
  revert w. induction p as [a | e | | R c k IH]; intros w Hp;
    cbn [run]; try (split; reflexivity).
  destruct Hp as [Hc Hk].
  specialize (IH (respond os w c) (advance w c) (Hk _)).
  destruct (run os (k (respond os w c)) (advance w c)) as [[o w1] tr1].
  unfold world_of, trace_of in *. cbn [fst snd] in *.
  destruct IH as (Hr & Hg).
  split.
  - rewrite Hr. destruct c; try reflexivity; discriminate.
  - intros held tr. cbn [app].
    destruct c; cbn [guarded]; try apply Hg; discriminate.
Qed.

(** ** The peer cache of a UDP connection *)

(** An argument whose static and dynamic types agree is stored as it
    is. *)
Lemma unexpected_ret {T : Type} (E : exn_type) (e : exception) :
  dyn_type e = E ->
  unexpected (T := T) E e = Ret (Expected.of_exception_ptr (Some e)).
Proof.
  intros H. unfold unexpected, Expected.unexpected, make_exception_ptr.
  destruct (decide (dyn_type e = E)); [|contradiction].
  destruct e as [E' msg]. cbn in *. subst E'. reflexivity.
Qed.

Ltac solve_calls :=
  cbn;
  repeat match goal with
         | |- True => exact I
         | |- context [unexpected _ _] =>
             rewrite unexpected_ret by reflexivity; cbn
         | |- _ /\ _ => split; [reflexivity | intros ?; cbn]
         | |- context [decide _] => case_decide; cbn
         | |- context [poll_failed ?a ?b] => destruct (poll_failed a b); cbn
         | |- context [let '(_, _) := ?x in _] => destruct x; cbn
         | |- context [match ?x with _ => _ end] => is_var x; destruct x; cbn
         end.

(** [resolve] makes operating-system calls only. *)
Lemma resolve_only_os_calls (address : string) :
  only_calls (@os_call) (resolve address).
Proof.
  unfold resolve.
  destruct (Snipper.snip (Snipper.new address 3) "://")
    as [[protocol s1] | e |]; cbn; trivial.
  destruct (Snipper.snip s1 ":") as [[hostname s2] | e |]; cbn; trivial.
  destruct protocol as [protocol|]; cbn; trivial.
  solve_calls.
Qed.

(** What [resolve] hands back holds either the resolved handle or a
    [std::runtime_error]. *)
Lemma resolve_result_shape (os : oracle) (address : string) (w : world)
    (x : Expected.t addrinfo) :
  result_of (run os (resolve address) w) = Returns x ->
  (exists h, x = Expected.of_value h) \/
  (exists msg, x = Expected.of_exception_ptr (Some (std_runtime_error msg))).
Proof.
  unfold resolve.
  destruct (Snipper.snip (Snipper.new address 3) "://")
    as [[protocol s1] | e |]; cbn; try discriminate.
  destruct (Snipper.snip s1 ":") as [[hostname s2] | e |]; cbn;
    try discriminate.
  destruct protocol as [protocol|]; cbn; try discriminate.
  unfold result_of.
  repeat case_decide; rewrite ?unexpected_ret by reflexivity; cbn;
    try (intros [= <-]; right; eexists; reflexivity);
    (destruct (os (clock w) _ _) as [status resolved]; cbn;
     case_decide; rewrite ?unexpected_ret by reflexivity; cbn; intros [= <-];
     [right; eexists; reflexivity | left; eexists; reflexivity]).
Qed.

(** ** Deadlines *)

Lemma poll_failed_timeout (revents : Z) :
  Z.land revents POLLERR = 0 -> poll_failed 0 revents = false.
Proof. intros H. unfold poll_failed. rewrite H. reflexivity. Qed.

(** A TCP read whose readiness wait times out ends in a
    [std::logic_error] without reading. *)
Lemma tcp_read_times_out (c : TCPConnectionImpl.t) (b t : Z) :
  times_out (TCPConnectionImpl.__socket c) POLLIN t
    (TCPConnectionImpl.read c b t).
Proof.
  intros revents H. cbn.
  rewrite (poll_failed_timeout _ H). cbn.
  rewrite unexpected_ret by reflexivity. eexists. reflexivity.
Qed.

(** A TCP write whose readiness wait times out ends in a
    [std::logic_error] without writing. *)
Lemma tcp_write_times_out (c : TCPConnectionImpl.t) (b t : Z) :
  times_out (TCPConnectionImpl.__socket c) POLLOUT t
    (TCPConnectionImpl.write c b t).
Proof.
  intros revents H. cbn.
  rewrite (poll_failed_timeout _ H). cbn.
  rewrite unexpected_ret by reflexivity. eexists. reflexivity.
Qed.

(** A UDP read whose readiness wait times out ends in a
    [std::logic_error] without receiving, and leaves [remote] as it
    was. *)
Lemma udp_read_from_times_out (c : UDPConnectionImpl.t) (b t : Z)
    (remote : string) (revents : Z) :
  Z.land revents POLLERR = 0 ->
  exists msg,
    after_poll (UDPConnectionImpl.read_from c b remote t) (0, revents) =
      Some (UDPConnectionImpl.__socket c, POLLIN, to_int t,
            Ret (Expected.of_exception_ptr (Some (std_logic_error msg)),
                 remote)).
Proof.
  intros H. cbn.
  rewrite (poll_failed_timeout _ H). cbn.
  rewrite unexpected_ret by reflexivity. eexists. reflexivity.
Qed.

(** C1: [TCPListenerImpl::accept] has no branch for a readiness wait that
    times out.  When [poll] hands back 0 with no event, the next thing
    the listener does is the [accept] call itself, so the deadline does
    not end the operation in a [std::logic_error]. *)
Theorem accept_after_poll_timeout (l : TCPListenerImpl.t) (t : Z) :
  (exists k,
     after_poll (TCPListenerImpl.accept l t) (0, 0) =
       Some (TCPListenerImpl.__socket l, POLLIN, to_int t,
             Call (sys_accept (TCPListenerImpl.__socket l)) k)) /\
  ~ times_out (TCPListenerImpl.__socket l) POLLIN t
      (TCPListenerImpl.accept l t).
Proof.
  split.
  - eexists. reflexivity.
  - intros Ht. destruct (Ht 0 eq_refl) as [msg Hmsg].
    cbn in Hmsg. discriminate.
Qed.

(** ** The two modes of a UDP connection *)


(** On a dialing connection the unaddressed read is refused with a
    [std::logic_error] before any call, as the comment on the read forms
    of [UDPConnection] in the header says; [tests/main.cpp] reads from a
    dialing connection this way and expects a datagram. *)
Lemma udp_read_dialing_refused (c : UDPConnectionImpl.t) (b t : Z) :
  UDPConnectionImpl.remote_addr c <> UDPConnectionImpl.unknown_addr ->
  exists msg,
    UDPConnectionImpl.read c b t =
      Ret (Expected.of_exception_ptr (Some (std_logic_error msg))).
Proof.
  intros Hd. unfold UDPConnectionImpl.read.
  destruct (decide (UDPConnectionImpl.__remote_addr c
                    ≠ UDPConnectionImpl.unknown_addr)); [|contradiction].
  rewrite unexpected_ret by reflexivity. eexists. reflexivity.
Qed.



(** ** Address strings of a TCP pair *)

(** The port field of the socket address object does not reach the
    string [netaddr] builds. *)
Lemma netaddr_ignores_port_field (at_ family port port' : Z) (addr : list Z) :
  netaddr (mk_sockaddr_ptr at_ (mk_sockaddr family port addr)) =
  netaddr (mk_sockaddr_ptr at_ (mk_sockaddr family port' addr)).
Proof. reflexivity. Qed.

(** For an IPv4 address that converts to [ip], the string is [ip], a
    colon, and the number made of bits 16..31 of the pointer value with
    its two bytes exchanged. *)
Lemma netaddr_port_of_pointer (os : oracle) (w : world) (sa : sockaddr_ptr)
    (ip : string) :
  sa_family (sa_obj sa) = AF_INET ->
  os (clock w) _ (sys_inet_ntop AF_INET (sin_addr (sa_obj sa))) = Some ip ->
  result_of (run os (netaddr sa) w) =
    Returns (Expected.of_value
               (ip +:+ ":" +:+
                to_string (ntohs (Z.land (Z.shiftr (sa_at sa) 16) 65535)))).
Proof.
  intros Hf Hip. unfold netaddr, result_of. rewrite Hf.
  destruct (decide (AF_INET = AF_INET)) as [_|]; [|contradiction].
  cbn [mbind prog_bind bind invoke run respond].
  rewrite Hip. reflexivity.
Qed.

(** C4: listening on and dialing [tcp://127.0.0.1:5432], with the two
    resolutions allocated at [0x55555556ffe0] and [0x555555570020] and a
    peer at port 40000, every call succeeds, yet the dialing side reports
    the remote address [tcp://127.0.0.1:22357] and the accepted side the
    local address [tcp://127.0.0.1:22101]: the ports come from the
    pointer values, not from the socket addresses, and the two sides do
    not match. *)
Theorem tcp_pair_addresses_mismatch :
  exists conn accepted,
    result_of (run Scenario.os_two_allocations
                 (Scenario.tcp_pair "tcp://127.0.0.1:5432" 1000)
                 Scenario.fresh)
      = Returns (conn, Expected.of_value accepted) /\
    TCPConnectionImpl.remote_addr conn = "tcp://127.0.0.1:22357" /\
    TCPConnectionImpl.local_addr accepted = "tcp://127.0.0.1:22101" /\
    TCPConnectionImpl.local_addr conn = "tcp://127.0.0.1:14940" /\
    TCPConnectionImpl.remote_addr accepted = "tcp://127.0.0.1:14940" /\
    Scenario.port_of (Scenario.loopback Scenario.port_5432) = 5432 /\
    Scenario.port_of (Scenario.loopback Scenario.port_40000) = 40000 /\
    ~ Scenario.matching_addresses conn accepted.
Proof.
  eexists _, _. split; [vm_compute; reflexivity|].
  repeat split; try reflexivity.
  intros [H _]. vm_compute in H. discriminate.
Qed.

(** ** Descriptors *)

(** C5: [listen_udp] on an address whose [bind] fails, and [dial_udp] on
    an address whose [connect] fails, create descriptor 3 and throw the
    construction error without closing it; the TCP listener and the TCP
    connection close theirs before they throw. *)
Theorem udp_ctor_failure_leaks_descriptor :
  let udp_l := run Scenario.os_address_in_use
                 (listen_udp "udp://127.0.0.1:9999") Scenario.fresh in
  let udp_d := run Scenario.os_address_in_use
                 (dial_udp "udp://127.0.0.1:9999") Scenario.fresh in
  let tcp_l := run Scenario.os_address_in_use
                 (listen_tcp "tcp://127.0.0.1:9999") Scenario.fresh in
  let tcp_d := run Scenario.os_address_in_use
                 (dial_tcp "tcp://127.0.0.1:9999") Scenario.fresh in
  (result_of udp_l = Throws (std_runtime_error
     "UDPConnection::UDPConnection: unable to bind socket - Address already in use") /\
   names (trace_of udp_l) = ["getaddrinfo"; "socket"; "bind"; "strerror"] /\
   count (is_socket_created 3) (trace_of udp_l) = 1%nat /\
   count (is_close 3) (trace_of udp_l) = 0%nat) /\
  (result_of udp_d = Throws (std_runtime_error
     "UDPConnection::UDPConnection: unable to connect socket - Address already in use") /\
   names (trace_of udp_d) = ["getaddrinfo"; "socket"; "connect"; "strerror"] /\
   count (is_socket_created 3) (trace_of udp_d) = 1%nat /\
   count (is_close 3) (trace_of udp_d) = 0%nat) /\
  names (trace_of tcp_l) =
    ["getaddrinfo"; "socket"; "setsockopt"; "bind"; "close"; "strerror"] /\
  count (is_close 3) (trace_of tcp_l) = 1%nat /\
  names (trace_of tcp_d) =
    ["getaddrinfo"; "inet_ntop"; "socket"; "connect"; "close"; "strerror"] /\
  count (is_close 3) (trace_of tcp_d) = 1%nat.
Proof. cbv zeta. repeat split; vm_compute; reflexivity. Qed.

(** The implicit destructor of a UDP connection makes no call. *)
Lemma udp_dtor_silent (os : oracle) (w : world) (c : UDPConnectionImpl.t) :
  run os (UDPConnectionImpl.dtor c) w = (Returns tt, w, []).
Proof. reflexivity. Qed.

(** The destructors of a TCP connection and of a TCP listener, when they
    run, close the descriptor, once. *)
Lemma tcp_dtor_closes (os : oracle) (w : world) (c : TCPConnectionImpl.t) :
  count (is_close (TCPConnectionImpl.__socket c))
    (trace_of (run os (TCPConnectionImpl.dtor c) w)) = 1%nat.
Proof.
  cbn. unfold count. cbn.
  rewrite decide_True; [reflexivity|].
  rewrite bool_decide_eq_true. reflexivity.
Qed.

Lemma tcp_listener_dtor_closes (os : oracle) (w : world)
    (l : TCPListenerImpl.t) :
  count (is_close (TCPListenerImpl.__socket l))
    (trace_of (run os (TCPListenerImpl.dtor l) w)) = 1%nat.
Proof.
  cbn. unfold count. cbn.
  rewrite decide_True; [reflexivity|].
  rewrite bool_decide_eq_true. reflexivity.
Qed.

(** What [listen_tcp] hands back is never destroyed as a
    [TCPListenerImpl]: its lifetime ends with the calls of [listen_tcp],
    and in no defined way. *)
Lemma tcp_listener_lifetime_run (os : oracle) (w : world) (address : string)
    (l : TCPListenerImpl.t) :
  result_of (run os (listen_tcp address) w) = Returns l ->
  result_of (run os (Scenario.tcp_listener_lifetime address) w) = Undefined /\
  trace_of (run os (Scenario.tcp_listener_lifetime address) w)
  = trace_of (run os (listen_tcp address) w).
Proof.
  unfold Scenario.tcp_listener_lifetime. rewrite run_bind.
  destruct (run os (listen_tcp address) w) as [[o w1] tr1].
  unfold result_of, trace_of. cbn. intros ->. cbn.
  split; [reflexivity | apply app_nil_r].
Qed.

(** C6: a UDP connection, listening or dialing, created on descriptor 3
    and then destroyed, never closes that descriptor, and neither does a
    TCP listener, which [listen_tcp] hands back as a
    [std::unique_ptr<TCPListener>] that never runs [~TCPListenerImpl];
    only a TCP connection closes its descriptor, exactly once. *)
Theorem descriptor_closed_by_tcp_connection_only :
  let udp_l := run Scenario.os_ok
                 (Scenario.udp_listening_lifetime "udp://127.0.0.1:9999")
                 Scenario.fresh in
  let udp_d := run Scenario.os_ok
                 (Scenario.udp_dialing_lifetime "udp://127.0.0.1:9999")
                 Scenario.fresh in
  let tcp_d := run Scenario.os_ok
                 (Scenario.tcp_lifetime "tcp://127.0.0.1:9999")
                 Scenario.fresh in
  let tcp_l := run Scenario.os_ok
                 (Scenario.tcp_listener_lifetime "tcp://127.0.0.1:9999")
                 Scenario.fresh in
  (result_of udp_l = Returns tt /\
   names (trace_of udp_l) = ["getaddrinfo"; "socket"; "bind"; "inet_ntop"] /\
   count (is_socket_created 3) (trace_of udp_l) = 1%nat /\
   count (is_close 3) (trace_of udp_l) = 0%nat) /\
  (result_of udp_d = Returns tt /\
   names (trace_of udp_d) =
     ["getaddrinfo"; "socket"; "connect"; "getsockname"; "inet_ntop"] /\
   count (is_socket_created 3) (trace_of udp_d) = 1%nat /\
   count (is_close 3) (trace_of udp_d) = 0%nat) /\
  (result_of tcp_d = Returns tt /\
   names (trace_of tcp_d) =
     ["getaddrinfo"; "inet_ntop"; "socket"; "connect"; "getsockname";
      "inet_ntop"; "close"] /\
   count (is_socket_created 3) (trace_of tcp_d) = 1%nat /\
   count (is_close 3) (trace_of tcp_d) = 1%nat) /\
  (names (trace_of tcp_l) =
     ["getaddrinfo"; "socket"; "setsockopt"; "bind"; "listen"] /\
   count (is_socket_created 3) (trace_of tcp_l) = 1%nat /\
   count (is_close 3) (trace_of tcp_l) = 0%nat).
Proof. cbv zeta. repeat split; vm_compute; reflexivity. Qed.

(** ** Calls a constructor or an operation can make *)

Lemma netaddr_calls (ok : forall (R : Type), call R -> bool)
    (sa : sockaddr_ptr) :
  (forall family addr, ok _ (sys_inet_ntop family addr) = true) ->
  ok _ sys_strerror_errno = true ->
  only_calls ok (netaddr sa).
Proof.
  intros H1 H2. unfold netaddr.
  repeat case_decide; cbn;
    rewrite ?unexpected_ret by reflexivity; cbn; trivial;
    (split; [apply H1|]; intros [ip|]; cbn; [exact I|];
     split; [exact H2|]; intros msg;
     rewrite unexpected_ret by reflexivity; exact I).
Qed.

(** Neither constructor of a UDP connection ever calls [close],
    whatever the operating system answers. *)
Lemma udp_ctors_never_close (resolved : addrinfo) (dialing : string) :
  only_calls (@not_close) (UDPConnectionImpl.listening_ctor resolved) /\
  only_calls (@not_close) (UDPConnectionImpl.dialing_ctor resolved dialing).
Proof.
  split.
  - unfold UDPConnectionImpl.listening_ctor, netaddr. solve_calls.
  - unfold UDPConnectionImpl.dialing_ctor, netaddr_socket, netaddr.
    solve_calls.
Qed.

Lemma count_cons (f : event -> bool) (ev : event) (tr : list event) :
  count f (ev :: tr) = ((if f ev then 1 else 0) + count f tr)%nat.
Proof.
  unfold count. cbn. destruct (f ev); cbn.
  - rewrite decide_True by reflexivity. reflexivity.
  - rewrite decide_False by discriminate. reflexivity.
Qed.

Lemma count_nil (f : event -> bool) : count f [] = 0%nat.
Proof. reflexivity. Qed.

Ltac count_events :=
  rewrite ?count_cons, ?count_nil; cbn [is_close is_socket_created fst snd];
  rewrite ?bool_decide_true by reflexivity; reflexivity.

Ltac run_steps :=
  repeat progress
    (rewrite ?unexpected_ret by reflexivity;
     cbn [mbind prog_bind bind invoke run respond advance clock fst snd eval
          Expected.get Expected.__erred Expected.read_exception
          Expected.read_value Expected.__union Expected.of_exception_ptr
          Expected.of_value Expected.erred Expected.exception_ negb
          mret prog_ret names map name_of]).

Ltac not_in_trace H :=
  exfalso; apply list_elem_of_In in H; cbn in H; intuition discriminate.

(** X24: a TCP connection whose construction throws right after
    [connect] (the trace has a [connect] and no [getsockname]) has closed
    the descriptor it created, once. *)
Lemma tcp_ctor_connect_failure_closes (os : oracle) (w : world)
    (resolved : addrinfo) (e : exception) :
  let r := run os (TCPConnectionImpl.ctor resolved) w in
  result_of r = Throws e ->
  "connect" ∈ names (trace_of r) ->
  "getsockname" ∉ names (trace_of r) ->
  exists fd,
    fd <> -1 /\
    names (trace_of r) =
      ["inet_ntop"; "socket"; "connect"; "close"; "strerror"] /\
    count (is_socket_created fd) (trace_of r) = 1%nat /\
    count (is_close fd) (trace_of r) = 1%nat.
Proof.
  cbv zeta. unfold TCPConnectionImpl.ctor, netaddr_socket, netaddr,
    result_of, trace_of.
  repeat case_decide; run_steps; try (intros _ Hin; not_in_trace Hin).
  all: destruct (os (clock w) _ _) as [ip|]; run_steps;
    try (intros _ Hin; not_in_trace Hin).
  all: set (fd := os (S (clock w)) Z _);
    destruct (decide (fd = -1)) as [Hfd|Hfd]; run_steps;
    try (intros _ Hin; not_in_trace Hin).
  all: case_decide; run_steps.
  all: try (intros _ _ _; exists fd; split; [exact Hfd|];
            split; [reflexivity|]; split; count_events).
  all: intros _ _ Hnot; exfalso; apply Hnot.
  all: destruct (os (S (S (S (clock w)))) _ _) as [rc sas]; run_steps;
    repeat (first [ case_decide
                  | match goal with
                    | |- context [match ?x with Some _ => _ | None => _ end] =>
                        destruct x
                    end ]; run_steps);
    apply list_elem_of_In; cbn; auto 10.
Qed.

(** [resolve] calls [getaddrinfo] and [gai_strerror] and nothing else. *)
Lemma resolve_calls (ok : forall (R : Type), call R -> bool)
    (address : string) :
  (forall host port family socktype,
     ok _ (sys_getaddrinfo host port family socktype) = true) ->
  (forall status, ok _ (sys_gai_strerror status) = true) ->
  only_calls ok (resolve address).
Proof.
  intros H1 H2. unfold resolve.
  destruct (Snipper.snip (Snipper.new address 3) "://")
    as [[protocol s1] | e |]; cbn; trivial.
  destruct (Snipper.snip s1 ":") as [[hostname s2] | e |]; cbn; trivial.
  destruct protocol as [protocol|]; cbn; trivial.
  repeat case_decide; rewrite ?unexpected_ret by reflexivity; try exact I;
    (split; [apply H1|]; intros [status resolved]; cbn;
     case_decide; [|exact I]; cbn;
     split; [apply H2|]; intros msg;
     rewrite unexpected_ret by reflexivity; exact I).
Qed.

(** X25: the addressed UDP write is [__resolve] followed by a part that,
    for every handle that resolved, begins with the readiness wait and
    ends in a [std::logic_error] without sending when that wait times
    out. *)
Lemma udp_write_to_times_out (c : UDPConnectionImpl.t) (b t : Z)
    (remote : string) :
  exists K,
    UDPConnectionImpl.write_to c b remote t
      = (UDPConnectionImpl.__resolve remote ≫= K) /\
    forall x, Expected.erred x = false ->
      times_out (UDPConnectionImpl.__socket c) POLLOUT t (K x).
Proof.
  eexists. split; [reflexivity|].
  intros x Hx revents H. cbv beta. rewrite Hx. cbn.
  rewrite (poll_failed_timeout _ H). cbn.
  rewrite unexpected_ret by reflexivity. eexists. reflexivity.
Qed.

(** After [__resolve] the cache is what it was, or what it was with the
    remote, absent before, bound to a handle. *)
Lemma cache_after_resolve (os : oracle) (w : world) (remote : string) :
  let w' := world_of (run os (UDPConnectionImpl.__resolve remote) w) in
  remotes w' = remotes w \/
  (remotes w !! remote = None /\
   exists h, remotes w' = <[remote := h]> (remotes w)).
Proof.
  cbv zeta. unfold UDPConnectionImpl.__resolve.
  cbn [mbind prog_bind invoke bind run respond advance clock remotes].
  destruct (remotes w !! remote) as [h|] eqn:Hfind.
  - left. reflexivity.
  - cbn [bind run respond advance clock remotes].
    change (advance (advance (advance w mutex_lock) (remotes_find remote))
              mutex_unlock) with (after_lookup w).
    rewrite run_bind.
    pose proof (only_os_calls_run os _ (after_lookup w)
                  (resolve_only_os_calls remote)) as (Hrem & _).
    destruct (run os (resolve remote) (after_lookup w))
      as [[[[[] [h | [e|]]] | e |] w1] tr1];
      unfold world_of in *; cbn in *; rewrite ?Hrem; auto.
    right. split; [reflexivity|]. exists h. reflexivity.
Qed.

(** X26: in every environment the addressed UDP write leaves every entry
    of the peer cache in place: it only ever adds to the cache. *)
Lemma write_to_cache_monotone (os : oracle) (w : world)
    (c : UDPConnectionImpl.t) (b t : Z) (remote : string) :
  remotes w
  ⊆ remotes (world_of (run os (UDPConnectionImpl.write_to c b remote t) w)).
Proof.
  unfold UDPConnectionImpl.write_to. rewrite run_bind.
  assert (Hsub : remotes w
            ⊆ remotes (world_of
                (run os (UDPConnectionImpl.__resolve remote) w))).
  { destruct (cache_after_resolve os w remote) as [-> | (Hnone & h & ->)];
      [reflexivity | now apply insert_subseteq]. }
  destruct (run os (UDPConnectionImpl.__resolve remote) w)
    as [[[x | e |] w1] tr1]; unfold world_of in *; cbn [fst snd] in *;
    try exact Hsub.
  match goal with
  | |- context [run os ?p w1] =>
      assert (Hp : only_calls (@os_call) p)
  end.
  { destruct x as [[] [v | [e|]]]; solve_calls. }
  match goal with
  | |- context [run os ?p w1] =>
      pose proof (only_os_calls_run os p w1 Hp) as (Hrem & _);
      destruct (run os p w1) as [[o w2] tr2]
  end.
  unfold world_of in Hrem. cbn [fst snd] in *. rewrite Hrem. exact Hsub.
Qed.

Ltac unit_answers :=
  repeat match goal with
         | |- context [?o ?n unit ?c] =>
             lazymatch type of o with oracle => destruct (o n unit c) end
         end.

(** What a run of [__resolve] is made of.  It looks the literal remote
    string up in [__remotes] with [__remotes_lock] held.  On a hit it
    hands back the cached handle and does nothing more.  On a miss it
    runs [resolve]; a resolved handle is assigned under the key, with the
    lock held again, and handed back, and a failed resolution leaves the
    map as it was. *)
Lemma resolve_member_run (os : oracle) (w : world) (remote : string) :
  let r := run os (UDPConnectionImpl.__resolve remote) w in
  let rr := run os (resolve remote) (after_lookup w) in
  let lookup tr :=
    Event mutex_lock tt :: Event (remotes_find remote) (remotes w !! remote)
    :: Event mutex_unlock tt :: tr in
  match remotes w !! remote with
  | Some h =>
      result_of r = Returns (Expected.of_value h) /\
      remotes (world_of r) = remotes w /\
      trace_of r = lookup []
  | None =>
      match result_of rr with
      | Returns x =>
          if Expected.erred x
          then result_of r = Returns x /\
               remotes (world_of r) = remotes w /\
               trace_of r = lookup (trace_of rr)
          else exists h,
                 x = Expected.of_value h /\
                 result_of r = Returns (Expected.of_value h) /\
                 remotes (world_of r) = <[remote := h]> (remotes w) /\
                 trace_of r =
                   lookup (trace_of rr ++
                           [Event mutex_lock tt;
                            Event (remotes_assign remote h) tt;
                            Event mutex_unlock tt])%list
      | Throws e =>
          result_of r = Throws e /\
          remotes (world_of r) = remotes w /\
          trace_of r = lookup (trace_of rr)
      | Undefined =>
          result_of r = Undefined /\
          remotes (world_of r) = remotes w /\
          trace_of r = lookup (trace_of rr)
      end
  end.
Proof.
  cbv zeta. unfold UDPConnectionImpl.__resolve.
  cbn [mbind prog_bind invoke bind run respond advance clock remotes].
  destruct (remotes w !! remote) as [h|] eqn:Hfind.
  - cbn. unit_answers. repeat split; reflexivity.
  - cbn [bind run respond advance clock remotes].
    change (advance (advance (advance w mutex_lock) (remotes_find remote))
              mutex_unlock) with (after_lookup w).
    rewrite run_bind.
    pose proof (only_os_calls_run os _ (after_lookup w)
                  (resolve_only_os_calls remote)) as (Hrem & _).
    pose proof (resolve_result_shape os remote (after_lookup w)) as Hshape.
    destruct (run os (resolve remote) (after_lookup w)) as [[o w1] tr1].
    unfold world_of, trace_of, result_of in *. cbn [fst snd] in *.
    change (remotes (after_lookup w)) with (remotes w) in Hrem.
    destruct o as [x | e |].
    + destruct (Hshape x eq_refl) as [[h ->] | [msg ->]]; cbn.
      * exists h. rewrite Hrem. unit_answers. repeat split.
      * rewrite app_nil_r. unit_answers. repeat split. exact Hrem.
    + cbn. unit_answers. repeat split. exact Hrem.
    + cbn. unit_answers. repeat split. exact Hrem.
Qed.

Lemma guarded_wait_or_send (held : bool) (tr : list event) :
  Forall (fun ev => admitted_by (@wait_or_send) ev = true) tr ->
  guarded held tr = negb held.
Proof.
  induction 1 as [|ev tr Hev _ IH]; [reflexivity|].
  destruct ev as [R c r]. destruct c; try discriminate Hev; exact IH.
Qed.

(** C9: the addressed UDP write begins by looking the literal remote
    string up in [__remotes], with [__remotes_lock] held whenever the map
    is touched.  On a hit it resolves nothing and changes nothing: what
    follows is the wait and the send, to the address of the cached
    handle.  Only on a miss does it run [resolve]: a resolved handle is
    assigned under the remote string, and the wait and the send follow
    with that handle; a failed resolution ends the write with the map as
    it was.  No entry is ever removed or replaced: the map before is
    included in the map after. *)
Theorem write_to_cache (os : oracle) (w : world) (c : UDPConnectionImpl.t)
    (b t : Z) (remote : string) :
  let fd := UDPConnectionImpl.__socket c in
  let r := run os (UDPConnectionImpl.write_to c b remote t) w in
  let rr := run os (resolve remote) (after_lookup w) in
  let sends (h : addrinfo) (rest : list event) :=
    Forall (fun ev => admitted_by (@wait_or_send) ev = true) rest /\
    forall s, result_of r = Returns (Expected.of_value s) ->
      exists ready,
        rest = [Event (sys_poll fd POLLOUT (to_int t)) ready;
                Event (sys_sendto fd b (ai_addr h) (ai_addrlen h)) s] in
  guarded false (trace_of r) = true /\
  remotes w ⊆ remotes (world_of r) /\
  exists tr,
    trace_of r =
      Event mutex_lock tt :: Event (remotes_find remote) (remotes w !! remote)
      :: Event mutex_unlock tt :: tr /\
    match remotes w !! remote with
    | Some h => remotes (world_of r) = remotes w /\ sends h tr
    | None =>
        match result_of rr with
        | Returns x =>
            if Expected.erred x
            then tr = trace_of rr /\
                 remotes (world_of r) = remotes w /\
                 result_of r =
                   Returns (Expected.of_exception_ptr
                     (Some (std_invalid_argument
                        ("UDPConnection::write: unable to resolve the given remote "
                         +:+ dquote +:+ remote +:+ dquote))))
            else exists h rest,
                   x = Expected.of_value h /\
                   tr = (trace_of rr ++
                         Event mutex_lock tt
                         :: Event (remotes_assign remote h) tt
                         :: Event mutex_unlock tt :: rest)%list /\
                   remotes (world_of r) = <[remote := h]> (remotes w) /\
                   sends h rest
        | Throws e =>
            tr = trace_of rr /\ remotes (world_of r) = remotes w /\
            result_of r = Throws e
        | Undefined =>
            tr = trace_of rr /\ remotes (world_of r) = remotes w /\
            result_of r = Undefined
        end
    end.
Proof.
  cbv zeta. unfold UDPConnectionImpl.write_to.
  match goal with
  | |- context [UDPConnectionImpl.__resolve remote ≫= ?K] => set (rest_of := K)
  end.
  assert (HK : forall h w1,
    let r2 := run os (rest_of (Expected.of_value h)) w1 in
    remotes (world_of r2) = remotes w1 /\
    Forall (fun ev => admitted_by (@wait_or_send) ev = true) (trace_of r2) /\
    forall s, result_of r2 = Returns (Expected.of_value s) ->
      exists ready,
        trace_of r2 =
          [Event (sys_poll (UDPConnectionImpl.__socket c) POLLOUT (to_int t))
             ready;
           Event (sys_sendto (UDPConnectionImpl.__socket c) b (ai_addr h)
                    (ai_addrlen h)) s]).
  { intros h w1. cbv zeta. unfold rest_of, poll, result_of, trace_of, world_of.
    run_steps. destruct (os (clock w1) _ _) as [result revents]. run_steps.
    destruct (poll_failed result revents); run_steps.
    { split; [reflexivity|]. split; [repeat constructor|]. discriminate. }
    case_decide; run_steps.
    { split; [reflexivity|]. split; [repeat constructor|]. discriminate. }
    case_decide; run_steps.
    { split; [reflexivity|]. split; [repeat constructor|]. discriminate. }
    split; [reflexivity|]. split; [repeat constructor|].
    intros s [= <-]. eexists. reflexivity. }
  rewrite run_bind.
  pose proof (resolve_member_run os w remote) as H. cbv zeta in H.
  pose proof (only_os_calls_run os _ (after_lookup w)
                (resolve_only_os_calls remote)) as (_ & Hg).
  pose proof (resolve_result_shape os remote (after_lookup w)) as Hshape.
  destruct (run os (UDPConnectionImpl.__resolve remote) w) as [[o w1] tr1].
  unfold result_of, world_of, trace_of in H. cbn [fst snd] in H.
  destruct (remotes w !! remote) as [h|] eqn:Hfind.
  - destruct H as (-> & Hw1 & ->).
    specialize (HK h w1). cbv zeta in HK.
    destruct (run os (rest_of (Expected.of_value h)) w1) as [[o2 w2] tr2].
    unfold result_of, world_of, trace_of in *. cbn [fst snd app] in *.
    destruct HK as (Hw2 & Hall & Hsend).
    split; [cbn; apply (guarded_wait_or_send false _ Hall)|].
    split; [rewrite Hw2, Hw1; reflexivity|].
    eexists. split; [reflexivity|].
    split; [rewrite Hw2; exact Hw1|]. split; assumption.
  - destruct (run os (resolve remote) (after_lookup w)) as [[orr wrr] trr].
    unfold result_of, world_of, trace_of in *. cbn [fst snd] in *.
    destruct orr as [x | e |].
    + destruct (Hshape x eq_refl) as [[h ->] | [msg ->]]; cbn in H.
      * destruct H as (h' & [= <-] & -> & Hw1 & ->).
        specialize (HK h w1). cbv zeta in HK.
        destruct (run os (rest_of (Expected.of_value h)) w1) as [[o2 w2] tr2].
        unfold result_of, world_of, trace_of in *. cbn [fst snd app] in *.
        destruct HK as (Hw2 & Hall & Hsend).
        split.
        { cbn. rewrite <- app_assoc, Hg. cbn.
          apply (guarded_wait_or_send false _ Hall). }
        split; [rewrite Hw2, Hw1; apply insert_subseteq; exact Hfind|].
        eexists. split; [reflexivity|]. cbn.
        exists h, tr2. split; [reflexivity|].
        split; [rewrite <- app_assoc; reflexivity|].
        split; [rewrite Hw2; exact Hw1|]. split; assumption.
      * destruct H as (-> & Hw1 & ->).
        unfold rest_of. cbn. rewrite unexpected_ret by reflexivity. cbn.
        split; [rewrite app_nil_r, <- (app_nil_r trr), Hg; reflexivity|].
        split; [rewrite Hw1; reflexivity|].
        eexists. split; [reflexivity|]. rewrite app_nil_r.
        repeat split. exact Hw1.
    + destruct H as (-> & Hw1 & ->). cbn.
      split; [rewrite <- (app_nil_r trr), Hg; reflexivity|].
      split; [rewrite Hw1; reflexivity|].
      eexists. split; [reflexivity|]. repeat split. exact Hw1.
    + destruct H as (-> & Hw1 & ->). cbn.
      split; [rewrite <- (app_nil_r trr), Hg; reflexivity|].
      split; [rewrite Hw1; reflexivity|].
      eexists. split; [reflexivity|]. repeat split. exact Hw1.
Qed.

(** The first addressed write to a remote resolves it and stores the
    handle; the second finds it and does not resolve again. *)
Example udp_second_write_hits_cache :
  let r := run Scenario.os_ok
             (Scenario.udp_write_twice Scenario.listening
                "udp://127.0.0.1:9998")
             Scenario.fresh in
  result_of r = Returns (Expected.of_value 6, Expected.of_value 6) /\
  names (trace_of r) =
    ["lock"; "find"; "unlock"; "getaddrinfo"; "lock"; "assign"; "unlock";
     "poll"; "sendto";
     "lock"; "find"; "unlock"; "poll"; "sendto"] /\
  is_Some (remotes (world_of r) !! "udp://127.0.0.1:9998").
Proof.
  cbv zeta. split; [vm_compute; reflexivity|].
  split; [vm_compute; reflexivity|].
  vm_compute. eexists. reflexivity.
Qed.

(** A remote that does not resolve is reported as a
    [std::invalid_argument] and leaves the cache empty. *)
Example udp_failed_resolution_not_cached :
  let r := run Scenario.os_no_such_host
             (UDPConnectionImpl.write_to Scenario.listening 6
                "udp://nowhere.invalid:9" 1000)
             Scenario.fresh in
  (exists msg,
     result_of r =
       Returns (Expected.of_exception_ptr (Some (std_invalid_argument msg)))) /\
  names (trace_of r) =
    ["lock"; "find"; "unlock"; "getaddrinfo"; "gai_strerror"] /\
  remotes (world_of r) !! "udp://nowhere.invalid:9" = None.
Proof.
  cbv zeta. split; [eexists; vm_compute; reflexivity|].
  split; vm_compute; reflexivity.
Qed.

(** X27: no operation of a TCP connection or of a TCP listener calls
    [close]: the descriptor stays open until destruction. *)
Lemma tcp_operations_never_close :
  (forall c b t,
     only_calls (@not_close) (TCPConnectionImpl.read c b t) /\
     only_calls (@not_close) (TCPConnectionImpl.write c b t) /\
     only_calls (@not_close) (TCPConnectionImpl.timeout c t)) /\
  (forall c d, only_calls (@not_close) (TCPConnectionImpl.no_delay c d)) /\
  (forall l t, only_calls (@not_close) (TCPListenerImpl.accept l t)).
Proof.
  split; [intros c b t; split; [|split]
         | split; [intros c d | intros l t]].
  - unfold TCPConnectionImpl.read, poll. solve_calls.
  - unfold TCPConnectionImpl.write, poll. solve_calls.
  - unfold TCPConnectionImpl.timeout, TCPConnectionImpl.read_timeout,
      TCPConnectionImpl.write_timeout. solve_calls.
  - unfold TCPConnectionImpl.no_delay. solve_calls.
  - unfold TCPListenerImpl.accept, poll, netaddr. solve_calls.
Qed.

(** ** Calls that never happen *)

Lemma only_calls_bind {A B : Type} (ok : forall (R : Type), call R -> bool)
    (p : prog A) (f : A -> prog B) :
  only_calls ok p -> (forall a, only_calls ok (f a)) ->
  only_calls ok (p ≫= f).
Proof.
  change (p ≫= f) with (bind p f).
  intros Hp Hf. induction p as [a | e | | R c k IH]; cbn; auto.
  destruct Hp as [Hc Hk]. split; [exact Hc|]. intros r. apply IH, Hk.
Qed.

(** What a program never calls never shows in its traces. *)
Lemma only_calls_trace {A : Type} (ok : forall (R : Type), call R -> bool)
    (os : oracle) (p : prog A) (w : world) :
  only_calls ok p ->
  Forall (fun ev => admitted_by ok ev = true) (trace_of (run os p w)).
Proof.
  revert w. induction p as [a | e | | R c k IH]; intros w Hp; cbn [run];
    try constructor.
  destruct Hp as [Hc Hk].
  specialize (IH (respond os w c) (advance w c) (Hk _)).
  destruct (run os (k (respond os w c)) (advance w c)) as [[o w1] tr1].
  constructor; [exact Hc | exact IH].
Qed.

Lemma never_closed (fd : Z) (tr : list event) :
  Forall (fun ev => admitted_by (@not_close) ev = true) tr ->
  count (is_close fd) tr = 0%nat.
Proof.
  induction 1 as [|ev tr Hev _ IH]; [reflexivity|].
  rewrite count_cons, IH.
  destruct ev as [R c r]. destruct c; try reflexivity. discriminate.
Qed.

Lemma udp_resolve_never_closes (remote : string) :
  only_calls (@not_close) (UDPConnectionImpl.__resolve remote).
Proof.
  unfold UDPConnectionImpl.__resolve.
  split; [reflexivity|]. intros ?.
  split; [reflexivity|]. intros [second|]; cbn.
  - split; [reflexivity|]. intros ?. exact I.
  - split; [reflexivity|]. intros ?.
    apply (only_calls_bind (@not_close)).
    + apply resolve_calls; reflexivity.
    + intros [[] [v | [e|]]]; solve_calls.
Qed.

(** From its construction to its destruction, whatever is done with it
    and whatever the operating system answers, a UDP connection never
    calls [close]. *)
Lemma udp_never_closes :
  (forall address,
     only_calls (@not_close) (listen_udp address) /\
     only_calls (@not_close) (dial_udp address)) /\
  (forall c b t remote,
     only_calls (@not_close) (UDPConnectionImpl.read_from c b remote t) /\
     only_calls (@not_close) (UDPConnectionImpl.read c b t) /\
     only_calls (@not_close) (UDPConnectionImpl.write_to c b remote t) /\
     only_calls (@not_close) (UDPConnectionImpl.write c b t) /\
     only_calls (@not_close) (UDPConnectionImpl.timeout c t) /\
     only_calls (@not_close) (UDPConnectionImpl.dtor c)).
Proof.
  assert (Hread : forall c b t remote,
            only_calls (@not_close) (UDPConnectionImpl.read_from c b remote t)).
  { intros. unfold UDPConnectionImpl.read_from, poll, netaddr. solve_calls. }
  assert (Hwrite : forall c b t remote,
            only_calls (@not_close) (UDPConnectionImpl.write_to c b remote t)).
  { intros. unfold UDPConnectionImpl.write_to.
    apply (only_calls_bind (@not_close)); [apply udp_resolve_never_closes|].
    intros [[] [v | [e|]]]; unfold poll; solve_calls. }
  split.
  - intros address. split.
    + unfold listen_udp.
      apply (only_calls_bind (@not_close)); [apply resolve_calls; reflexivity|].
      intros r. apply (only_calls_bind (@not_close)).
      { destruct r as [[] [v | [e|]]]; exact I. }
      intros resolved. case_decide; [exact I|].
      apply udp_ctors_never_close. exact EmptyString.
    + unfold dial_udp.
      apply (only_calls_bind (@not_close)); [apply resolve_calls; reflexivity|].
      intros r. apply (only_calls_bind (@not_close)).
      { destruct r as [[] [v | [e|]]]; exact I. }
      intros resolved. case_decide; [exact I|].
      apply udp_ctors_never_close.
  - intros c b t remote.
    split; [|split; [|split; [|split; [|split; [|exact I]]]]].
    + apply Hread.
    + unfold UDPConnectionImpl.read. case_decide.
      * rewrite unexpected_ret by reflexivity. exact I.
      * apply (only_calls_bind (@not_close)); [apply Hread|].
        intros [r whom]. exact I.
    + apply Hwrite.
    + unfold UDPConnectionImpl.write. case_decide.
      * rewrite unexpected_ret by reflexivity. exact I.
      * apply Hwrite.
    + unfold UDPConnectionImpl.timeout, UDPConnectionImpl.read_timeout,
        UDPConnectionImpl.write_timeout. solve_calls.
Qed.

(** In every environment, a UDP connection that is created and then
    destroyed leaves every descriptor unclosed. *)
Lemma udp_lifetime_never_closes (os : oracle) (w : world) (address : string)
    (fd : Z) :
  count (is_close fd)
    (trace_of (run os (Scenario.udp_listening_lifetime address) w)) = 0%nat /\
  count (is_close fd)
    (trace_of (run os (Scenario.udp_dialing_lifetime address) w)) = 0%nat.
Proof.
  destruct udp_never_closes as [Hctor _].
  destruct (Hctor address) as [Hl Hd].
  split; apply never_closed, only_calls_trace;
    unfold Scenario.udp_listening_lifetime, Scenario.udp_dialing_lifetime;
    apply (only_calls_bind (@not_close)); try (intros c; exact I).
  - exact Hl.
  - exact Hd.
Qed.

(** * Further properties *)

(** ** [Expected<T>]: copies and [exception()] *)

Section ExpectedMore.
Context {T : Type}.
Implicit Types (x y : Expected.t T) (v : T) (e : exception).

(** X1: the copy (and the move) constructor applied to an [Expected<T>]
    that the interface built yields an equal object: the same tag, the
    same live member, and no read of the other member. *)
Theorem Expected_copy_faithful o x :
  Expected.built_from o x ->
  Expected.copy x = Returns x /\
  forall y, Expected.copy x = Returns y -> Expected.get y = Expected.get x.
Proof.
  intros H. rewrite (built_from_shape _ _ H).
  destruct o; cbn; split; try reflexivity; intros y [= <-]; reflexivity.
Qed.

(** X2: [exception()] agrees with [get()]: it hands back the null pointer
    for an [Expected<T>] built from a value, and the stored pointer for
    one built from an error: the exception [get()] throws or, where
    [get()] is undefined, the null pointer. *)
Theorem Expected_exception_agrees o x :
  Expected.built_from o x ->
  match o with
  | inl v =>
      Expected.exception_ x = Returns None /\ Expected.get x = Returns v
  | inr p =>
      Expected.exception_ x = Returns p /\
      Expected.get x = match p with
                       | Some e => Throws e
                       | None => Undefined
                       end
  end.
Proof.
  intros H. rewrite (built_from_shape _ _ H).
  destruct o as [v | [e|]]; cbn; split; reflexivity.
Qed.

End ExpectedMore.

Lemma Expected_copy_faithful_witness :
  Expected.built_from (inl 7) (Expected.of_value 7) /\
  Expected.copy (Expected.of_value 7) = Returns (Expected.of_value 7) /\
  forall y, Expected.copy (Expected.of_value 7) = Returns y ->
            Expected.get y = Expected.get (Expected.of_value 7).
Proof.
  split; [apply Expected.built_value|].
  exact (Expected_copy_faithful (inl 7) _ (Expected.built_value 7)).
Defined.

Lemma Expected_exception_agrees_witness :
  let e := std_logic_error "timeout whilst polling the socket" in
  Expected.built_from (T := Z) (inr (Some e))
    (Expected.of_exception_ptr (Some e)) /\
  Expected.exception_ (T := Z) (Expected.of_exception_ptr (Some e))
    = Returns (Some e) /\
  Expected.get (T := Z) (Expected.of_exception_ptr (Some e)) = Throws e.
Proof.
  cbv zeta. split; [apply Expected.built_exception_ptr|].
  exact (Expected_exception_agrees (T := Z) (inr (Some _)) _
           (Expected.built_exception_ptr _)).
Defined.

(** ** [Snipper]: what a snip takes and what it leaves *)

Lemma substring_zero (s : string) (n : nat) :
  String.substring n 0 s = EmptyString.
Proof.
  revert n. induction s as [|c s IH]; intros [|n]; cbn; auto.
Qed.

Lemma substring_glue (s : string) (n m k : nat) :
  (n + m <= String.length s)%nat ->
  String.substring n m s +:+ String.substring (n + m) k s
  = String.substring n (m + k) s.
Proof.
  revert n m k. induction s as [|c s IH]; intros n m k Hlen.
  - cbn in Hlen. assert (n = 0%nat) as -> by lia.
    assert (m = 0%nat) as -> by lia. destruct k; reflexivity.
  - destruct n as [|n].
    + destruct m as [|m].
      * cbn [Nat.add]. rewrite substring_zero. reflexivity.
      * cbn [Nat.add String.substring].
        change (String c ?a +:+ ?b) with (String c (a +:+ b)).
        cbn in Hlen.
        rewrite <- (IH 0%nat m k) by lia. reflexivity.
    + cbn [Nat.add String.substring]. cbn in Hlen. apply IH. lia.
Qed.

Lemma substring_prefix_length (s : string) (i : nat) :
  (i <= String.length s)%nat ->
  String.length (String.substring 0 i s) = i.
Proof.
  revert i. induction s as [|c s IH]; intros [|i] H; cbn in *;
    try reflexivity; try lia.
  f_equal. apply IH. lia.
Qed.

(** The three parts a found delimiter cuts a string in. *)
Lemma index_splits (d s : string) (i : nat) :
  String.index 0 d s = Some i ->
  String.substring 0 i s +:+ d +:+
    String.substring (i + String.length d)
      (String.length s - (i + String.length d)) s = s.
Proof.
  intros H. pose proof (index_bound _ _ _ H) as Hb.
  pose proof (String.index_correct1 _ _ _ _ H) as Hd.
  set (k := (String.length s - (i + String.length d))%nat).
  transitivity (String.substring 0 i s +:+
                String.substring i (String.length d) s +:+
                String.substring (i + String.length d) k s);
    [now rewrite Hd|].
  rewrite substring_glue by lia.
  pose proof (substring_glue s 0 i (String.length d + k)) as G.
  cbn [Nat.add] in G. rewrite G by lia.
  replace (i + (String.length d + k))%nat with (String.length s) by lia.
  apply substring_all.
Qed.

(** X4: a snip on a delimiter that occurs (first at a position below
    [2^31]) cuts the remaining string in three: the piece it records and
    hands back, the delimiter, and what remains; put together again they
    are the string as it was.  A snip on a delimiter that does not occur
    hands back the null pointer and changes nothing. *)
Theorem snip_cuts (s : Snipper.t) (d : string) :
  str_length (Snipper.__str s) < 2 ^ 31 ->
  match String.index 0 d (Snipper.__str s) with
  | Some i =>
      exists piece s',
        Snipper.snip s d = Returns (Some (c_str piece), s') /\
        String.length piece = i /\
        piece +:+ d +:+ Snipper.__str s' = Snipper.__str s /\
        Snipper.__snipped s' = (Snipper.__snipped s ++ [piece])%list
  | None => Snipper.snip s d = Returns (None, s)
  end.
Proof.
  intros Hlen.
  destruct (String.index 0 d (Snipper.__str s)) as [i|] eqn:E.
  - pose proof (index_bound _ _ _ E) as Hb. unfold str_length in Hlen.
    eexists _, _. split; [apply (snip_found _ _ _ E); lia|].
    cbn [Snipper.__str Snipper.__snipped].
    split; [|split; [exact (index_splits _ _ _ E) | reflexivity]].
    apply substring_prefix_length. lia.
  - apply (snip_missing _ _ E).
Qed.

Lemma snip_cuts_witness :
  let s := Snipper.new "tcp://127.0.0.1:9876" 3 in
  str_length (Snipper.__str s) < 2 ^ 31 /\
  match String.index 0 "://" (Snipper.__str s) with
  | Some i =>
      exists piece s',
        Snipper.snip s "://" = Returns (Some (c_str piece), s') /\
        String.length piece = i /\
        piece +:+ "://" +:+ Snipper.__str s' = Snipper.__str s /\
        Snipper.__snipped s' = (Snipper.__snipped s ++ [piece])%list
  | None => Snipper.snip s "://" = Returns (None, s)
  end.
Proof.
  cbv zeta. split; [reflexivity|].
  apply (snip_cuts (Snipper.new "tcp://127.0.0.1:9876" 3) "://").
  reflexivity.
Defined.

(** ** [resolve]: what reaches name resolution, and what comes back *)

Lemma append_associative (a b c : string) :
  (a +:+ b) +:+ c = a +:+ (b +:+ c).
Proof.
  induction a as [|x a IH]; [reflexivity|].
  change (String x a +:+ b) with (String x (a +:+ b)).
  change (String x (a +:+ b) +:+ c) with (String x ((a +:+ b) +:+ c)).
  change (String x a +:+ (b +:+ c)) with (String x (a +:+ (b +:+ c))).
  now rewrite IH.
Qed.

Lemma append_length (a b : string) :
  String.length (a +:+ b) = (String.length a + String.length b)%nat.
Proof.
  induction a as [|x a IH]; [reflexivity|].
  change (String x a +:+ b) with (String x (a +:+ b)). cbn. now rewrite IH.
Qed.

Lemma substring_prefix_app (a b : string) :
  String.substring 0 (String.length a) (a +:+ b) = a.
Proof.
  induction a as [|x a IH].
  - cbn. destruct (EmptyString +:+ b); reflexivity.
  - change (String x a +:+ b) with (String x (a +:+ b)). cbn. now rewrite IH.
Qed.

Lemma index_cons (d : string) (x : Ascii.ascii) (s : string) :
  String.index 0 d (String x s) =
    if String.prefix d (String x s) then Some 0%nat
    else match String.index 0 d s with
         | Some n => Some (S n)
         | None => None
         end.
Proof. reflexivity. Qed.

Lemma prefix_single (a x : Ascii.ascii) (s : string) :
  String.prefix (String a EmptyString) (String x s) =
    if Ascii.ascii_dec a x then true else false.
Proof.
  cbn [String.prefix]. destruct (Ascii.ascii_dec a x); [|reflexivity].
  destruct s; reflexivity.
Qed.

(** The first colon of [host:rest], for a host that has none. *)
Lemma colon_index (host rest : string) :
  String.index 0 ":" host = None ->
  String.index 0 ":" (host +:+ ":" +:+ rest) = Some (String.length host).
Proof.
  induction host as [|x host IH]; intros H.
  - change (EmptyString +:+ ":" +:+ rest)
      with (String (Ascii.ascii_of_nat 58) rest).
    rewrite index_cons.
    change ":" with (String (Ascii.ascii_of_nat 58) EmptyString).
    rewrite prefix_single.
    destruct (Ascii.ascii_dec _ _); [reflexivity | contradiction].
  - change (String x host +:+ ":" +:+ rest)
      with (String x (host +:+ ":" +:+ rest)).
    rewrite index_cons in *.
    change ":" with (String (Ascii.ascii_of_nat 58) EmptyString) in *.
    rewrite prefix_single in *.
    destruct (Ascii.ascii_dec (Ascii.ascii_of_nat 58) x); [discriminate|].
    destruct (String.index 0 (String (Ascii.ascii_of_nat 58) EmptyString) host)
      as [j|] eqn:Hj; [discriminate|].
    rewrite (IH eq_refl). reflexivity.
Qed.

(** X5: for [<proto>://<host>:<port>] with [tcp] or [udp] as the
    protocol and a host without a colon (shorter than [2^31]), [resolve]
    makes one call, to [getaddrinfo], with the host as the node, the
    family left unspecified, the socket type of the protocol (stream for
    [tcp], datagram for [udp]) and, as the service, everything after the
    first colon that follows the host, further colons included; when
    nothing follows that colon the service is [80]. *)
Theorem resolve_host_port (proto host port : string) (socktype : Z) :
  (proto = "tcp" /\ socktype = SOCK_STREAM) \/
  (proto = "udp" /\ socktype = SOCK_DGRAM) ->
  String.index 0 ":" host = None ->
  str_length host < 2 ^ 31 ->
  exists k,
    resolve (proto +:+ "://" +:+ host +:+ ":" +:+ port) =
      Call (sys_getaddrinfo (Some (c_str host))
              (if decide (port = EmptyString) then "80" else c_str port)
              AF_UNSPEC socktype) k.
Proof.
  intros Hproto Hcolon Hlen.
  set (rest := host +:+ ":" +:+ port).
  assert (Hi : String.index 0 "://" (proto +:+ "://" +:+ rest) = Some 3%nat).
  { unfold rest.
    destruct Hproto as [[-> _] | [-> _]]; destruct host; reflexivity. }
  unfold resolve.
  rewrite (snip_found (Snipper.new (proto +:+ "://" +:+ rest) 3) "://" 3 Hi)
    by (cbn; lia).
  cbn [eval mbind prog_bind bind Snipper.__str Snipper.new].
  assert (Hrest : String.substring (3 + String.length "://")
            (String.length (proto +:+ "://" +:+ rest)
             - (3 + String.length "://")) (proto +:+ "://" +:+ rest) = rest).
  { destruct Hproto as [[-> _] | [-> _]].
    - exact (substring_after_prefix "tcp://" rest).
    - exact (substring_after_prefix "udp://" rest). }
  rewrite Hrest.
  pose proof (colon_index host port Hcolon) as Hj. fold rest in Hj.
  unfold str_length in Hlen.
  rewrite (snip_found {| Snipper.__str := rest |} ":" _ Hj)
    by (cbn [Snipper.__str String.length]; lia).
  cbn [eval mbind prog_bind bind Snipper.__str].
  assert (Hhost : String.substring 0 (String.length host) rest = host)
    by apply substring_prefix_app.
  assert (Hport : String.substring (String.length host + String.length ":")
            (String.length rest - (String.length host + String.length ":"))
            rest = port).
  { unfold rest. rewrite <- append_associative.
    replace (String.length host + String.length ":")%nat
      with (String.length (host +:+ ":")) by apply append_length.
    apply substring_after_prefix. }
  rewrite Hhost, Hport.
  unfold Snipper.remaining_or. cbn [Snipper.__str].
  destruct Hproto as [[-> ->] | [-> ->]]; eexists; reflexivity.
Qed.

Lemma resolve_host_port_witness :
  (("udp" = "tcp" /\ SOCK_DGRAM = SOCK_STREAM) \/
   ("udp" = "udp" /\ SOCK_DGRAM = SOCK_DGRAM)) /\
  String.index 0 ":" "127.0.0.1" = None /\
  str_length "127.0.0.1" < 2 ^ 31 /\
  exists k,
    resolve "udp://127.0.0.1:9999" =
      Call (sys_getaddrinfo (Some "127.0.0.1") "9999" AF_UNSPEC SOCK_DGRAM) k.
Proof.
  split; [right; split; reflexivity|].
  split; [reflexivity|]. split; [reflexivity|].
  apply (resolve_host_port "udp" "127.0.0.1" "9999" SOCK_DGRAM);
    [right; split; reflexivity | reflexivity | reflexivity].
Defined.

(** X6: an address (shorter than [2^31]) whose protocol token is neither
    [tcp] nor [udp] is refused before any call is made, with a
    [std::runtime_error] whose text quotes the address and the
    protocol. *)
Theorem resolve_rejects_protocol (address protocol : string) :
  protocol_of address = Some protocol ->
  protocol <> "tcp" -> protocol <> "udp" ->
  str_length address < 2 ^ 31 ->
  resolve address =
    Ret (Expected.of_exception_ptr (Some (std_runtime_error
      ("resolve: unable to resolve " +:+ dquote +:+ address +:+ dquote
       +:+ " - Unsupported protocol " +:+ dquote +:+ protocol +:+ dquote)))).
Proof.
  unfold protocol_of. intros Hp Htcp Hudp Hlen.
  destruct (String.index 0 "://" address) as [i|] eqn:E; [|discriminate].
  injection Hp as Hp.
  pose proof (index_bound _ _ _ E) as Hb. unfold str_length in Hlen.
  unfold resolve.
  rewrite (snip_found (Snipper.new address 3) "://" i E) by (cbn in *; lia).
  cbn [eval mbind prog_bind bind Snipper.__str Snipper.new].
  match goal with |- context [Snipper.snip ?s ":"] =>
    destruct (snip_returns s ":") as ([hostname rest] & -> & _)
  end.
  { cbn [Snipper.__str]. unfold str_length.
    pose proof (substring_length_le address (i + String.length "://")
                  (String.length address - (i + String.length "://"))).
    lia. }
  cbn [eval mbind prog_bind bind]. rewrite Hp.
  destruct (decide (protocol = "tcp")); [contradiction|].
  destruct (decide (protocol = "udp")); [contradiction|].
  apply unexpected_ret. reflexivity.
Qed.

Lemma resolve_rejects_protocol_witness :
  protocol_of "ftp://host:21" = Some "ftp" /\
  "ftp" <> "tcp" /\ "ftp" <> "udp" /\
  str_length "ftp://host:21" < 2 ^ 31 /\
  resolve "ftp://host:21" =
    Ret (Expected.of_exception_ptr (Some (std_runtime_error
      ("resolve: unable to resolve " +:+ dquote +:+ "ftp://host:21" +:+ dquote
       +:+ " - Unsupported protocol " +:+ dquote +:+ "ftp" +:+ dquote)))).
Proof.
  split; [reflexivity|]. split; [discriminate|]. split; [discriminate|].
  split; [reflexivity|].
  apply (resolve_rejects_protocol "ftp://host:21" "ftp");
    [reflexivity | discriminate | discriminate | reflexivity].
Defined.

(** X7: in every environment [resolve] makes at most one call to
    [getaddrinfo].  It hands back the resolved handle exactly when that
    call answers status 0; on any other status it asks [gai_strerror]
    for the text and hands back a [std::runtime_error] that quotes the
    address and ends in that text; and when it makes no call at all it
    hands back no handle. *)
Theorem resolve_outcome (os : oracle) (w : world) (address : string) :
  let r := run os (resolve address) w in
  (trace_of r = [] /\
   forall h, result_of r <> Returns (Expected.of_value h)) \/
  (exists host port socktype h,
     trace_of r =
       [Event (sys_getaddrinfo host port AF_UNSPEC socktype) (0, h)] /\
     (socktype = SOCK_STREAM \/ socktype = SOCK_DGRAM) /\
     result_of r = Returns (Expected.of_value h)) \/
  (exists host port socktype status h msg,
     status <> 0 /\
     trace_of r =
       [Event (sys_getaddrinfo host port AF_UNSPEC socktype) (status, h);
        Event (sys_gai_strerror status) msg] /\
     result_of r =
       Returns (Expected.of_exception_ptr (Some (std_runtime_error
         ("resolve: trying to resolve " +:+ dquote +:+ address +:+ dquote
          +:+ " but failed - " +:+ msg))))).
Proof.
  cbv zeta. unfold resolve, result_of, trace_of.
  destruct (Snipper.snip (Snipper.new address 3) "://")
    as [[protocol s1] | e |]; cbn;
    try (left; split; [reflexivity | discriminate]).
  destruct (Snipper.snip s1 ":") as [[hostname s2] | e |]; cbn;
    try (left; split; [reflexivity | discriminate]).
  destruct protocol as [protocol|]; cbn;
    try (left; split; [reflexivity | discriminate]).
  repeat case_decide; run_steps;
    try (left; split; [reflexivity | discriminate]).
  all: destruct (os (clock w) _ _) as [status h] eqn:Eos; run_steps;
    case_decide; run_steps.
  all: try (right; right; eexists _, _, _, status, h, _;
            split; [assumption|]; split; reflexivity).
  all: right; left; assert (status = 0) as -> by lia;
    eexists _, _, _, h; split; [reflexivity|]; split; [auto | reflexivity].
Qed.

(** ** [netaddr]: the address strings *)

Lemma land_255 (x : Z) : Z.land x 255 = x mod 256.
Proof. change 255 with (Z.ones 8). rewrite Z.land_ones by lia. reflexivity. Qed.

(** [ntohs] hands back a 16-bit number: the low byte of its argument
    above the next byte. *)
Lemma ntohs_bytes (x : Z) :
  ntohs x = (x mod 256) * 256 + (x / 256) mod 256.
Proof.
  unfold ntohs. rewrite !land_255, Z.shiftl_mul_pow2, Z.shiftr_div_pow2 by lia.
  change (2 ^ 8) with 256.
  set (a := x mod 256). set (b := (x / 256) mod 256).
  assert (Ha : 0 <= a < 256) by (apply Z.mod_pos_bound; lia).
  assert (Hb : 0 <= b < 256) by (apply Z.mod_pos_bound; lia).
  assert (Hdisj : Z.land (a * 256) b = 0).
  { apply Z.bits_inj'. intros n Hn. rewrite Z.land_spec, Z.bits_0.
    destruct (Z.lt_ge_cases n 8) as [Hlt|Hge].
    - change 256 with (2 ^ 8). rewrite Z.mul_pow2_bits_low by lia.
      reflexivity.
    - unfold b. change 256 with (2 ^ 8) at 2.
      rewrite (Z.mod_pow2_bits_high _ 8 n) by lia.
      apply andb_false_r. }
  rewrite <- Z.lxor_lor by exact Hdisj.
  rewrite <- Z.add_nocarry_lxor by exact Hdisj. reflexivity.
Qed.

Lemma ntohs_range (x : Z) : 0 <= ntohs x < 65536.
Proof.
  rewrite ntohs_bytes.
  pose proof (Z.mod_pos_bound x 256). 
  pose proof (Z.mod_pos_bound (x / 256) 256). lia.
Qed.

(** X8: in every environment [netaddr] hands back an [Expected] and
    throws nothing.  For a family other than [AF_INET] and [AF_INET6] it
    makes no call and hands back a [std::runtime_error]; otherwise it
    asks [inet_ntop] once and hands back either the text it got, a colon
    and the decimal form of a number between 0 and 65535, or, when the
    conversion fails, a [std::runtime_error] that ends in the text of
    [strerror]. *)
Theorem netaddr_outcome (os : oracle) (w : world) (sa : sockaddr_ptr) :
  let r := run os (netaddr sa) w in
  let family := sa_family (sa_obj sa) in
  (family <> AF_INET /\ family <> AF_INET6 /\
   trace_of r = [] /\
   result_of r =
     Returns (Expected.of_exception_ptr
                (Some (std_runtime_error "netaddr: unsupported family")))) \/
  ((family = AF_INET \/ family = AF_INET6) /\
   exists ip port,
     0 <= port < 65536 /\
     trace_of r =
       [Event (sys_inet_ntop family (sin_addr (sa_obj sa))) (Some ip)] /\
     result_of r =
       Returns (Expected.of_value (ip +:+ ":" +:+ to_string port))) \/
  ((family = AF_INET \/ family = AF_INET6) /\
   exists msg,
     trace_of r =
       [Event (sys_inet_ntop family (sin_addr (sa_obj sa))) None;
        Event sys_strerror_errno msg] /\
     result_of r =
       Returns (Expected.of_exception_ptr (Some (std_runtime_error
         ("netaddr: unable to convert IP to human-readable form - "
          +:+ msg))))).
Proof.
  cbv zeta. unfold netaddr, result_of, trace_of.
  repeat case_decide; run_steps;
    try (left; repeat split; assumption).
  all: destruct (os (clock w) _ _) as [ip|] eqn:Eos; run_steps.
  all: try (right; left; split; [auto|];
            eexists ip, _; split; [apply ntohs_range|];
            split; reflexivity).
  all: right; right; split; [auto|]; eexists; split; reflexivity.
Qed.

(** ** Reads and writes: one wait, at most one transfer, every failure
    in the result *)

(** The wait counts as failed exactly when [poll] answered -1 or flagged
    [POLLERR]. *)
Lemma poll_failed_iff (result revents : Z) :
  poll_failed result revents = true <->
  result = -1 \/ Z.land revents POLLERR <> 0.
Proof.
  unfold poll_failed.
  rewrite orb_true_iff, bool_decide_eq_true, negb_true_iff, Z.eqb_neq.
  reflexivity.
Qed.

Ltac poll_cases result revents :=
  let Hp := fresh "Hp" in
  destruct (poll_failed result revents) eqn:Hp;
  [ apply poll_failed_iff in Hp; rewrite decide_True by exact Hp
  | rewrite decide_False by
      (intros Hp'; apply poll_failed_iff in Hp'; congruence) ].

(** X9: in every environment a TCP read hands back an [Expected] and
    throws nothing, and what it does is decided by what [poll] and
    [read] answer.  When the wait fails ([poll] answers -1 or flags
    [POLLERR]): a [std::runtime_error] with the text of [strerror], and
    no read.  Otherwise, when [poll] answers 0 (the wait timed out): a
    [std::logic_error], and no read.  Otherwise one read is made: when
    it answers a negative count, a [std::runtime_error] with the text of
    [strerror], and else the count it answered. *)
Theorem tcp_read_outcome (os : oracle) (w : world)
    (c : TCPConnectionImpl.t) (b t : Z) :
  let fd := TCPConnectionImpl.__socket c in
  let r := run os (TCPConnectionImpl.read c b t) w in
  let wait := sys_poll fd POLLIN (to_int t) in
  let ready := os (clock w) _ wait in
  let s := os (S (clock w)) _ (sys_read fd b) in
  let text n := os n _ sys_strerror_errno in
  let error E msg := Returns (Expected.of_exception_ptr (T := Z)
                                (Some (mk_exception E msg))) in
  if decide (ready.1 = -1 \/ Z.land ready.2 POLLERR <> 0) then
    trace_of r =
      [Event wait ready; Event sys_strerror_errno (text (S (clock w)))] /\
    result_of r =
      error runtime_error
        ("TCPConnection::read: failed to poll the socket - "
         +:+ text (S (clock w)))
  else if decide (ready.1 = 0) then
    trace_of r = [Event wait ready] /\
    result_of r =
      error logic_error
        "TCPConnection::read: timeout whilst polling the socket"
  else if decide (s < 0) then
    trace_of r =
      [Event wait ready; Event (sys_read fd b) s;
       Event sys_strerror_errno (text (S (S (clock w))))] /\
    result_of r =
      error runtime_error
        ("TCPConnection::read: unable to read - "
         +:+ text (S (S (clock w))))
  else
    trace_of r = [Event wait ready; Event (sys_read fd b) s] /\
    result_of r = Returns (Expected.of_value s).
Proof.
  cbv zeta. unfold TCPConnectionImpl.read, poll, result_of, trace_of.
  run_steps. destruct (os (clock w) _ _) as [result revents]. run_steps.
  poll_cases result revents; run_steps; [split; reflexivity|].
  case_decide; run_steps; [split; reflexivity|].
  case_decide; run_steps; split; reflexivity.
Qed.

(** X10: in every environment a TCP write hands back an [Expected] and
    throws nothing, and what it does is decided by what [poll] and
    [write] answer.  When the wait fails ([poll] answers -1 or flags
    [POLLERR]): a [std::runtime_error] with the text of [strerror], and
    no write.  Otherwise, when [poll] answers 0 (the wait timed out): a
    [std::logic_error], and no write.  Otherwise one write is made: when
    it answers a negative count, a [std::runtime_error] with the text of
    [strerror], and else the count it answered, which may be short of
    the buffer. *)
Theorem tcp_write_outcome (os : oracle) (w : world)
    (c : TCPConnectionImpl.t) (b t : Z) :
  let fd := TCPConnectionImpl.__socket c in
  let r := run os (TCPConnectionImpl.write c b t) w in
  let wait := sys_poll fd POLLOUT (to_int t) in
  let ready := os (clock w) _ wait in
  let s := os (S (clock w)) _ (sys_write fd b) in
  let text n := os n _ sys_strerror_errno in
  let error E msg := Returns (Expected.of_exception_ptr (T := Z)
                                (Some (mk_exception E msg))) in
  if decide (ready.1 = -1 \/ Z.land ready.2 POLLERR <> 0) then
    trace_of r =
      [Event wait ready; Event sys_strerror_errno (text (S (clock w)))] /\
    result_of r =
      error runtime_error
        ("TCPConnection::write: failed to poll the socket - "
         +:+ text (S (clock w)))
  else if decide (ready.1 = 0) then
    trace_of r = [Event wait ready] /\
    result_of r =
      error logic_error
        "TCPConnection::write: timeout whilst polling the socket"
  else if decide (s < 0) then
    trace_of r =
      [Event wait ready; Event (sys_write fd b) s;
       Event sys_strerror_errno (text (S (S (clock w))))] /\
    result_of r =
      error runtime_error
        ("TCPConnection::write: unable to write - "
         +:+ text (S (S (clock w))))
  else
    trace_of r = [Event wait ready; Event (sys_write fd b) s] /\
    result_of r = Returns (Expected.of_value s).
Proof.
  cbv zeta. unfold TCPConnectionImpl.write, poll, result_of, trace_of.
  run_steps. destruct (os (clock w) _ _) as [result revents]. run_steps.
  poll_cases result revents; run_steps; [split; reflexivity|].
  case_decide; run_steps; [split; reflexivity|].
  case_decide; run_steps; split; reflexivity.
Qed.

(** [netaddr] always hands back an [Expected]: an address string, or an
    error. *)
Lemma netaddr_returns (os : oracle) (w : world) (sa : sockaddr_ptr) :
  exists from,
    result_of (run os (netaddr sa) w) = Returns from /\
    ((exists e, from = Expected.of_exception_ptr (Some e)) \/
     exists addr, from = Expected.of_value addr).
Proof.
  unfold netaddr, result_of.
  repeat case_decide; run_steps;
    try (eexists; split; [reflexivity|]; left; eexists; reflexivity).
  all: destruct (os (clock w) _ _) as [ip|]; run_steps;
    eexists; (split; [reflexivity|]);
    first [ right; eexists; reflexivity | left; eexists; reflexivity ].
Qed.

(** X11: the remote-capturing UDP read overwrites the caller's [remote]
    only when a datagram was received, and what it hands back is decided
    by what [poll] and [recvfrom] answer.  It throws nothing.  When the
    wait fails, when it times out ([poll] answers 0) and when [recvfrom]
    answers a negative count, the result holds the error and [remote] is
    as the caller passed it.  Otherwise the result holds the count
    [recvfrom] answered, the address [recvfrom] stored is decoded by
    [netaddr], and [remote] becomes [udp://] followed by the decoded
    string or, when decoding fails, the sentinel [?]. *)
Theorem udp_read_from_remote (os : oracle) (w : world)
    (c : UDPConnectionImpl.t) (b t : Z) (remote : string) :
  let fd := UDPConnectionImpl.__socket c in
  let r := run os (UDPConnectionImpl.read_from c b remote t) w in
  let wait := sys_poll fd POLLIN (to_int t) in
  let ready := os (clock w) _ wait in
  let receive := sys_recvfrom fd b in
  let got := os (S (clock w)) _ receive in
  let decoded :=
    run os (netaddr got.2) {| clock := S (S (clock w)); remotes := remotes w |} in
  let text n := os n _ sys_strerror_errno in
  let error E msg := Expected.of_exception_ptr (T := Z)
                       (Some (mk_exception E msg)) in
  if decide (ready.1 = -1 \/ Z.land ready.2 POLLERR <> 0) then
    trace_of r =
      [Event wait ready; Event sys_strerror_errno (text (S (clock w)))] /\
    result_of r =
      Returns (error runtime_error
                 ("UDPConnection::read: failed to poll the socket - "
                  +:+ text (S (clock w))), remote)
  else if decide (ready.1 = 0) then
    trace_of r = [Event wait ready] /\
    result_of r =
      Returns (error logic_error
                 "UDPConnection::read: timeout whilst polling the socket",
               remote)
  else if decide (got.1 < 0) then
    trace_of r =
      [Event wait ready; Event receive got;
       Event sys_strerror_errno (text (S (S (clock w))))] /\
    result_of r =
      Returns (error runtime_error
                 ("UDPConnection::read: unable to read - "
                  +:+ text (S (S (clock w)))), remote)
  else
    trace_of r = Event wait ready :: Event receive got :: trace_of decoded /\
    exists from remote',
      result_of decoded = Returns from /\
      result_of r = Returns (Expected.of_value got.1, remote') /\
      ((Expected.erred from = true /\
        remote' = UDPConnectionImpl.unknown_addr) \/
       (exists addr, from = Expected.of_value addr /\
                     remote' = "udp://" +:+ addr)).
Proof.
  cbv zeta. unfold UDPConnectionImpl.read_from, poll, result_of, trace_of.
  run_steps. destruct (os (clock w) _ _) as [result revents]. run_steps.
  poll_cases result revents; run_steps; [split; reflexivity|].
  case_decide; run_steps; [split; reflexivity|].
  destruct (os (S (clock w)) _ _) as [s sas]. run_steps.
  case_decide; run_steps; [split; reflexivity|].
  rewrite run_bind.
  change (advance (advance w _) _)
    with {| clock := S (S (clock w)); remotes := remotes w |}.
  destruct (netaddr_returns os {| clock := S (S (clock w)); remotes := remotes w |}
              sas) as (from & Hfrom & Hshape).
  destruct (run os (netaddr sas) _) as [[o w1] tr1].
  unfold result_of in Hfrom. cbn [fst snd] in *. subst o.
  destruct Hshape as [[e ->] | [addr ->]]; run_steps.
  - rewrite app_nil_r. split; [reflexivity|].
    eexists _, _. split; [reflexivity|]. split; [reflexivity|].
    left. split; reflexivity.
  - rewrite app_nil_r. split; [reflexivity|].
    eexists _, _. split; [reflexivity|]. split; [reflexivity|].
    right. eexists. split; reflexivity.
Qed.

(** ** The listener: construction and accepted connections *)

(** X12: a TCP listener that is constructed has made exactly four calls,
    in this order: [socket], [setsockopt] of [SO_REUSEADDR] to 1, [bind]
    to the resolved address and [listen] with a backlog of 512, all on
    the descriptor it then owns; it has closed nothing, keeps the
    resolved address, and starts with the default timeout -1 (wait
    indefinitely). *)
Theorem tcp_listener_ctor_success (os : oracle) (w : world)
    (resolved : addrinfo) (l : TCPListenerImpl.t) :
  let r := run os (TCPListenerImpl.ctor resolved) w in
  result_of r = Returns l ->
  exists fd a b c,
    fd <> -1 /\
    trace_of r =
      [Event (sys_socket (ai_family resolved) (ai_socktype resolved)
                (ai_protocol resolved)) fd;
       Event (sys_setsockopt fd SOL_SOCKET SO_REUSEADDR (opt_int 1)) a;
       Event (sys_bind fd (ai_addr resolved) (ai_addrlen resolved)) b;
       Event (sys_listen fd 512) c] /\
    l = {| TCPListenerImpl.__addr := resolved;
           TCPListenerImpl.__timeout := -1;
           TCPListenerImpl.__socket := fd |}.
Proof.
  cbv zeta. unfold TCPListenerImpl.ctor, result_of, trace_of.
  run_steps. set (fd := os (clock w) Z _).
  destruct (decide (fd = -1)) as [Hfd|Hfd]; run_steps; [discriminate|].
  repeat (case_decide; run_steps); try discriminate.
  intros [= <-]. eexists fd, _, _, _. split; [exact Hfd|].
  split; reflexivity.
Qed.

Lemma tcp_listener_ctor_success_witness :
  let resolved :=
    mk_addrinfo AF_INET SOCK_STREAM 0
      (mk_sockaddr_ptr 0x55555556ffe0 (Scenario.loopback Scenario.port_5432))
      16 in
  let l := {| TCPListenerImpl.__addr := resolved;
              TCPListenerImpl.__timeout := -1;
              TCPListenerImpl.__socket := 3 |} in
  result_of (run Scenario.os_ok (TCPListenerImpl.ctor resolved) Scenario.fresh)
    = Returns l /\
  exists fd a b c,
    fd <> -1 /\
    trace_of (run Scenario.os_ok (TCPListenerImpl.ctor resolved) Scenario.fresh) =
      [Event (sys_socket (ai_family resolved) (ai_socktype resolved)
                (ai_protocol resolved)) fd;
       Event (sys_setsockopt fd SOL_SOCKET SO_REUSEADDR (opt_int 1)) a;
       Event (sys_bind fd (ai_addr resolved) (ai_addrlen resolved)) b;
       Event (sys_listen fd 512) c] /\
    l = {| TCPListenerImpl.__addr := resolved;
           TCPListenerImpl.__timeout := -1;
           TCPListenerImpl.__socket := fd |}.
Proof.
  cbv zeta. split; [reflexivity|].
  apply (tcp_listener_ctor_success Scenario.os_ok Scenario.fresh).
  reflexivity.
Defined.

(** X13: when [accept] hands back a connection, it has waited once,
    accepted once and converted two addresses, and has closed nothing;
    the connection owns the descriptor the [accept] call answered (not
    the listening one), its local address string is [tcp://], the text
    of the listener's resolved address, a colon and a number below
    65536, and its remote address string is the same made of the
    accepted peer's address. *)
Theorem accept_hands_over (os : oracle) (w : world)
    (l : TCPListenerImpl.t) (t : Z) (conn : TCPConnectionImpl.t) :
  let r := run os (TCPListenerImpl.accept l t) w in
  result_of r = Returns (Expected.of_value conn) ->
  exists ready fd peer ip ip' p p',
    fd <> -1 /\ 0 <= p < 65536 /\ 0 <= p' < 65536 /\
    trace_of r =
      [Event (sys_poll (TCPListenerImpl.__socket l) POLLIN (to_int t)) ready;
       Event (sys_accept (TCPListenerImpl.__socket l)) (fd, peer);
       Event (sys_inet_ntop
                (sa_family (sa_obj (ai_addr (TCPListenerImpl.__addr l))))
                (sin_addr (sa_obj (ai_addr (TCPListenerImpl.__addr l)))))
             (Some ip);
       Event (sys_inet_ntop (sa_family (sa_obj peer)) (sin_addr (sa_obj peer)))
             (Some ip')] /\
    conn = {| TCPConnectionImpl.__socket := fd;
              TCPConnectionImpl.__local_addr :=
                "tcp://" +:+ ip +:+ ":" +:+ to_string p;
              TCPConnectionImpl.__remote_addr :=
                "tcp://" +:+ ip' +:+ ":" +:+ to_string p' |}.
Proof.
  cbv zeta. unfold TCPListenerImpl.accept, poll, netaddr, result_of, trace_of.
  run_steps. destruct (os (clock w) _ _) as [result revents]. run_steps.
  destruct (poll_failed result revents); run_steps; [discriminate|].
  destruct (os (S (clock w)) _ _) as [fd peer]. run_steps.
  destruct (decide (fd = -1)) as [Hfd|Hfd]; run_steps; [discriminate|].
  repeat (case_decide; run_steps); try discriminate.
  all: destruct (os (S (S (clock w))) _ _) as [ip|]; run_steps;
    try discriminate.
  all: repeat (case_decide; run_steps); try discriminate.
  all: destruct (os (S (S (S (clock w)))) _ _) as [ip'|]; run_steps;
    try discriminate.
  all: intros [= <-]; eexists _, fd, peer, ip, ip', _, _;
    (split; [exact Hfd|]);
    (split; [apply ntohs_range|]); (split; [apply ntohs_range|]);
    split; reflexivity.
Qed.

Lemma accept_hands_over_witness :
  let l := {| TCPListenerImpl.__addr :=
                mk_addrinfo AF_INET SOCK_STREAM 0
                  (mk_sockaddr_ptr 0x55555556ffe0
                     (Scenario.loopback Scenario.port_5432)) 16;
              TCPListenerImpl.__timeout := -1;
              TCPListenerImpl.__socket := 3 |} in
  let r := run Scenario.os_ok (TCPListenerImpl.accept l 1000) Scenario.fresh in
  exists conn,
    result_of r = Returns (Expected.of_value conn) /\
    exists ready fd peer ip ip' p p',
      fd <> -1 /\ 0 <= p < 65536 /\ 0 <= p' < 65536 /\
      trace_of r =
        [Event (sys_poll (TCPListenerImpl.__socket l) POLLIN (to_int 1000)) ready;
         Event (sys_accept (TCPListenerImpl.__socket l)) (fd, peer);
         Event (sys_inet_ntop
                  (sa_family (sa_obj (ai_addr (TCPListenerImpl.__addr l))))
                  (sin_addr (sa_obj (ai_addr (TCPListenerImpl.__addr l)))))
               (Some ip);
         Event (sys_inet_ntop (sa_family (sa_obj peer))
                  (sin_addr (sa_obj peer)))
               (Some ip')] /\
      conn = {| TCPConnectionImpl.__socket := fd;
                TCPConnectionImpl.__local_addr :=
                  "tcp://" +:+ ip +:+ ":" +:+ to_string p;
                TCPConnectionImpl.__remote_addr :=
                  "tcp://" +:+ ip' +:+ ":" +:+ to_string p' |}.
Proof.
  cbv zeta. eexists. split; [vm_compute; reflexivity|].
  apply (accept_hands_over Scenario.os_ok Scenario.fresh).
  vm_compute. reflexivity.
Defined.

(** ** Deadlines and socket timeouts as the operating system gets them *)

(** X14: a deadline between [-2^31] and [2^31 - 1] milliseconds reaches
    [poll] unchanged (so the -1 of the forms without a deadline waits
    indefinitely), for reads, writes and accepts alike; a deadline from
    [2^31] up to [2^32 - 1] milliseconds reaches [poll] lowered by
    [2^32], a negative timeout: the wait is indefinite, not long. *)
Theorem deadline_reaches_poll (c : TCPConnectionImpl.t)
    (l : TCPListenerImpl.t) (b t : Z) :
  - 2 ^ 31 <= t < 2 ^ 32 ->
  let timeout := if t <? 2 ^ 31 then t else t - 2 ^ 32 in
  ((t <? 2 ^ 31) = false -> timeout < 0) /\
  (exists k, TCPConnectionImpl.read c b t =
     Call (sys_poll (TCPConnectionImpl.__socket c) POLLIN timeout) k) /\
  (exists k, TCPConnectionImpl.write c b t =
     Call (sys_poll (TCPConnectionImpl.__socket c) POLLOUT timeout) k) /\
  (exists k, TCPListenerImpl.accept l t =
     Call (sys_poll (TCPListenerImpl.__socket l) POLLIN timeout) k) /\
  (exists k, TCPConnectionImpl.read_blocking c b =
     Call (sys_poll (TCPConnectionImpl.__socket c) POLLIN (-1)) k).
Proof.
  intros Ht. cbv zeta.
  assert (Hint : to_int t = if t <? 2 ^ 31 then t else t - 2 ^ 32).
  { unfold to_int. destruct (t <? 2 ^ 31) eqn:E.
    - apply Z.ltb_lt in E. rewrite Z.mod_small by lia. lia.
    - apply Z.ltb_ge in E.
      replace (t + 2 ^ 31) with ((t - 2 ^ 31) + 1 * 2 ^ 32) by lia.
      rewrite Z.mod_add by lia. rewrite Z.mod_small by lia. lia. }
  rewrite <- Hint.
  split.
  { intros E. rewrite Hint, E. apply Z.ltb_ge in E. lia. }
  repeat split; eexists; reflexivity.
Qed.

Lemma deadline_reaches_poll_witness :
  let c := TCPConnectionImpl.of_socket 4 "127.0.0.1:1" "127.0.0.1:2" in
  - 2 ^ 31 <= 1000 < 2 ^ 32 /\
  exists k, TCPConnectionImpl.read c 1024 1000 =
    Call (sys_poll (TCPConnectionImpl.__socket c) POLLIN 1000) k.
Proof.
  cbv zeta. split; [lia|].
  exact (proj1 (proj2 (deadline_reaches_poll
    (TCPConnectionImpl.of_socket 4 "127.0.0.1:1" "127.0.0.1:2")
    {| TCPListenerImpl.__addr :=
         mk_addrinfo 0 0 0 (mk_sockaddr_ptr 0 (mk_sockaddr 0 0 [])) 0;
       TCPListenerImpl.__timeout := -1; TCPListenerImpl.__socket := 3 |}
    1024 1000 ltac:(lia)))).
Defined.

(** X15: the socket timeout a count of microseconds is turned into has
    whole seconds and a remainder that add up to the count again, with
    the remainder below a second in magnitude and, for a count that is
    not negative, neither part negative; this is the value the read
    timeout hands to [setsockopt] as [SO_RCVTIMEO] and the write timeout
    as [SO_SNDTIMEO], on a TCP and on a UDP connection. *)
Theorem timeouts_split_microseconds (c : TCPConnectionImpl.t)
    (u : UDPConnectionImpl.t) (t : Z) :
  exists sec usec,
    sec * 1000000 + usec = t /\
    - 1000000 < usec < 1000000 /\
    (0 <= t -> 0 <= sec /\ 0 <= usec) /\
    (exists k, TCPConnectionImpl.read_timeout c t =
       Call (sys_setsockopt (TCPConnectionImpl.__socket c) SOL_SOCKET
               SO_RCVTIMEO (opt_timeval sec usec)) k) /\
    (exists k, TCPConnectionImpl.write_timeout c t =
       Call (sys_setsockopt (TCPConnectionImpl.__socket c) SOL_SOCKET
               SO_SNDTIMEO (opt_timeval sec usec)) k) /\
    (exists k, UDPConnectionImpl.read_timeout u t =
       Call (sys_setsockopt (UDPConnectionImpl.__socket u) SOL_SOCKET
               SO_RCVTIMEO (opt_timeval sec usec)) k) /\
    (exists k, UDPConnectionImpl.write_timeout u t =
       Call (sys_setsockopt (UDPConnectionImpl.__socket u) SOL_SOCKET
               SO_SNDTIMEO (opt_timeval sec usec)) k).
Proof.
  exists (Z.quot t 1000000), (t - Z.quot t 1000000 * 1000000).
  pose proof (Z.quot_rem' t 1000000) as Hqr.
  pose proof (Z.rem_bound_abs t 1000000 ltac:(lia)) as Habs.
  assert (Hrem : t - Z.quot t 1000000 * 1000000 = Z.rem t 1000000) by lia.
  split; [lia|]. split; [rewrite Hrem; lia|].
  split.
  { intros Hpos. split.
    - apply Z.quot_pos; lia.
    - rewrite Hrem. apply Z.rem_bound_pos; lia. }
  repeat split; eexists; reflexivity.
Qed.

(** X16: [timeout] sets the receive timeout and then the send timeout,
    to the same value, and what it does is decided by what the two
    [setsockopt] calls answer, for the TCP and the UDP connection alike.
    When the first answers -1 the second is never attempted; when either
    answers -1 the failure is thrown, not handed back, and what is
    thrown is a pointer to a [std::runtime_error] (the operand of
    [throw new]); otherwise both calls are made and [timeout]
    returns. *)
Theorem timeout_outcome (os : oracle) (w : world)
    (c : TCPConnectionImpl.t) (u : UDPConnectionImpl.t) (t : Z) :
  let course (fd : Z) (r : outcome unit * world * list event) :=
    let receive := sys_setsockopt fd SOL_SOCKET SO_RCVTIMEO (timeval_of t) in
    let send := sys_setsockopt fd SOL_SOCKET SO_SNDTIMEO (timeval_of t) in
    let first := os (clock w) _ receive in
    let second := os (S (clock w)) _ send in
    let text n := os n _ sys_strerror_errno in
    if decide (first = -1) then
      trace_of r =
        [Event receive first; Event sys_strerror_errno (text (S (clock w)))] /\
      exists e, result_of r = Throws e /\ dyn_type e = ptr_to_runtime_error
    else if decide (second = -1) then
      trace_of r =
        [Event receive first; Event send second;
         Event sys_strerror_errno (text (S (S (clock w))))] /\
      exists e, result_of r = Throws e /\ dyn_type e = ptr_to_runtime_error
    else
      trace_of r = [Event receive first; Event send second] /\
      result_of r = Returns tt in
  course (TCPConnectionImpl.__socket c)
    (run os (TCPConnectionImpl.timeout c t) w) /\
  course (UDPConnectionImpl.__socket u)
    (run os (UDPConnectionImpl.timeout u t) w).
Proof.
  cbv zeta. split.
  - unfold TCPConnectionImpl.timeout, TCPConnectionImpl.read_timeout,
      TCPConnectionImpl.write_timeout, result_of, trace_of.
    run_steps. repeat (case_decide; run_steps);
      (split; [reflexivity|]);
      first [ reflexivity | eexists; split; reflexivity ].
  - unfold UDPConnectionImpl.timeout, UDPConnectionImpl.read_timeout,
      UDPConnectionImpl.write_timeout, result_of, trace_of.
    run_steps. repeat (case_decide; run_steps);
      (split; [reflexivity|]);
      first [ reflexivity | eexists; split; reflexivity ].
Qed.

(** ** The factories *)

(** Names the next answer of the environment, splitting it when it is a
    pair or an option. *)
Ltac next_answer :=
  match goal with
  | |- context [?o ?n ?R ?c] =>
      lazymatch type of o with
      | oracle =>
          lazymatch R with
          | (_ * _)%type => destruct (o n R c) as [? ?]
          | option _ => destruct (o n R c) as [?|]
          | _ => let v := fresh "ans" in set (v := o n R c) in *; clearbody v
          end
      end
  end.

Ltac crunch :=
  repeat (run_steps;
          match goal with
          | |- context [decide ?P] => destruct (decide P)
          | |- context [if poll_failed ?a ?b then _ else _] =>
              destruct (poll_failed a b)
          | |- _ => next_answer
          end);
  run_steps.

Lemma trace_of_cons {A : Type} (ev : event)
    (x : outcome A * world * list event) :
  trace_of (let '(o, w', tr) := x in (o, w', ev :: tr)) = ev :: trace_of x.
Proof. destruct x as [[o w'] tr]. reflexivity. Qed.

(** X17: each factory checks the transport kind before it creates a
    socket.  In every environment, [listen_tcp] and [dial_tcp] call
    [socket] only after a resolution that answered status 0 with a stream
    handle, and [listen_udp] and [dial_udp] only after one that answered
    status 0 with a datagram handle; otherwise no socket is created. *)
Theorem factories_check_kind (os : oracle) (w : world) (address : string) :
  let checked {A : Type} (wanted : Z) (factory : prog A) :=
    (exists host port socktype h tr,
       trace_of (run os factory w) =
         Event (sys_getaddrinfo host port AF_UNSPEC socktype) (0, h) :: tr /\
       ai_socktype h = wanted) \/
    "socket" ∉ names (trace_of (run os factory w)) in
  checked SOCK_STREAM (listen_tcp address) /\
  checked SOCK_STREAM (dial_tcp address) /\
  checked SOCK_DGRAM (listen_udp address) /\
  checked SOCK_DGRAM (dial_udp address).
Proof.
  cbv zeta.
  unfold listen_tcp, dial_tcp, listen_udp, dial_udp, resolve.
  destruct (Snipper.snip (Snipper.new address 3) "://")
    as [[protocol s1] | e |]; cbn;
    try (repeat split; right; intros Hin; not_in_trace Hin).
  destruct (Snipper.snip s1 ":") as [[hostname s2] | e |]; cbn;
    try (repeat split; right; intros Hin; not_in_trace Hin).
  destruct protocol as [protocol|]; cbn;
    try (repeat split; right; intros Hin; not_in_trace Hin).
  repeat case_decide; run_steps;
    try (repeat split; right; intros Hin; not_in_trace Hin).
  all: destruct (os (clock w) _ _) as [status h]; run_steps;
    case_decide; run_steps;
    try (repeat split; right; intros Hin; not_in_trace Hin).
  all: repeat split.
  all: case_decide; run_steps;
    try (right; intros Hin; not_in_trace Hin).
  all: left; rewrite trace_of_cons; assert (status = 0) as -> by lia;
    eexists _, _, _, h, _; split; [reflexivity|]; lia.
Qed.

(** ** The addressed UDP write *)

(** X18: an addressed UDP write to a remote that is in the peer cache
    never resolves: it looks the remote up under the lock, waits, and
    sends at most one datagram, to the address of the cached handle.  It
    hands back the count [sendto] answered, or a [std::runtime_error]
    (failed wait or failed send) or [std::logic_error] (timeout), and
    leaves the cache as it was. *)
Theorem udp_write_to_cached (os : oracle) (w : world)
    (c : UDPConnectionImpl.t) (b t : Z) (remote : string) (h : addrinfo) :
  remotes w !! remote = Some h ->
  let r := run os (UDPConnectionImpl.write_to c b remote t) w in
  remotes (world_of r) = remotes w /\
  ((exists e,
      (dyn_type e = runtime_error \/ dyn_type e = logic_error) /\
      result_of r = Returns (Expected.of_exception_ptr (Some e)) /\
      (names (trace_of r) = ["lock"; "find"; "unlock"; "poll"; "strerror"] \/
       names (trace_of r) = ["lock"; "find"; "unlock"; "poll"] \/
       names (trace_of r) =
         ["lock"; "find"; "unlock"; "poll"; "sendto"; "strerror"])) \/
   (exists a f u ready s,
      0 <= s /\
      result_of r = Returns (Expected.of_value s) /\
      trace_of r =
        [Event mutex_lock a; Event (remotes_find remote) f;
         Event mutex_unlock u;
         Event (sys_poll (UDPConnectionImpl.__socket c) POLLOUT (to_int t))
           ready;
         Event (sys_sendto (UDPConnectionImpl.__socket c) b (ai_addr h)
                  (ai_addrlen h)) s])).
Proof.
  intros Hfind. cbv zeta.
  unfold UDPConnectionImpl.write_to, UDPConnectionImpl.__resolve, poll,
    result_of, trace_of, world_of.
  run_steps. cbn [remotes advance]. rewrite Hfind. run_steps.
  destruct (os (S (S (S (clock w)))) _ _) as [result revents]. run_steps.
  destruct (poll_failed result revents); run_steps.
  { split; [reflexivity|]. left. eexists. split; [|split; [reflexivity|]];
      cbn; auto. }
  case_decide; run_steps.
  { split; [reflexivity|]. left. eexists. split; [|split; [reflexivity|]];
      cbn; auto. }
  case_decide; run_steps.
  { split; [reflexivity|]. left. eexists. split; [|split; [reflexivity|]];
      cbn; auto. }
  split; [reflexivity|]. right. eexists _, _, _, _, _.
  split; [|split; reflexivity]. lia.
Qed.

Lemma udp_write_to_cached_witness :
  let h := mk_addrinfo AF_INET SOCK_DGRAM 0
             (mk_sockaddr_ptr 0x55555556ffe0
                (Scenario.loopback Scenario.port_5432)) 16 in
  let w := {| clock := 0; remotes := {[ "udp://127.0.0.1:5432" := h ]} |} in
  let r := run Scenario.os_ok
             (UDPConnectionImpl.write_to Scenario.listening 6
                "udp://127.0.0.1:5432" 1000) w in
  remotes w !! "udp://127.0.0.1:5432" = Some h /\
  remotes (world_of r) = remotes w.
Proof.
  cbv zeta. split; [vm_compute; reflexivity|].
  refine (proj1 (udp_write_to_cached Scenario.os_ok
                   {| clock := 0;
                      remotes := {[ "udp://127.0.0.1:5432" :=
                        mk_addrinfo AF_INET SOCK_DGRAM 0
                          (mk_sockaddr_ptr 0x55555556ffe0
                             (Scenario.loopback Scenario.port_5432)) 16 ]} |}
                   Scenario.listening 6 1000 "udp://127.0.0.1:5432" _ _)).
  vm_compute. reflexivity.
Defined.

(** X19: when the remote of an addressed UDP write cannot be resolved
    ([__resolve] hands back an error), the write stops there: it makes
    no call beyond those of [__resolve], neither waits nor sends, and
    hands back a [std::invalid_argument] that quotes the remote. *)
Theorem udp_write_to_unresolvable (os : oracle) (w : world)
    (c : UDPConnectionImpl.t) (b t : Z) (remote : string)
    (x : Expected.t addrinfo) :
  result_of (run os (UDPConnectionImpl.__resolve remote) w) = Returns x ->
  Expected.erred x = true ->
  run os (UDPConnectionImpl.write_to c b remote t) w =
    (Returns (Expected.of_exception_ptr (Some (std_invalid_argument
       ("UDPConnection::write: unable to resolve the given remote "
        +:+ dquote +:+ remote +:+ dquote)))),
     world_of (run os (UDPConnectionImpl.__resolve remote) w),
     trace_of (run os (UDPConnectionImpl.__resolve remote) w)).
Proof.
  intros Hres Herr. unfold UDPConnectionImpl.write_to. rewrite run_bind.
  destruct (run os (UDPConnectionImpl.__resolve remote) w)
    as [[o w1] tr1]. unfold result_of, world_of, trace_of in *.
  cbn [fst snd] in *. subst o. rewrite Herr.
  rewrite unexpected_ret by reflexivity. cbn [run].
  now rewrite app_nil_r.
Qed.

Lemma udp_write_to_unresolvable_witness :
  let remote := "udp://nowhere.invalid:9" in
  let rr := run Scenario.os_no_such_host (UDPConnectionImpl.__resolve remote)
              Scenario.fresh in
  exists x,
    result_of rr = Returns x /\ Expected.erred x = true /\
    run Scenario.os_no_such_host
      (UDPConnectionImpl.write_to Scenario.listening 6 remote 1000)
      Scenario.fresh =
      (Returns (Expected.of_exception_ptr (Some (std_invalid_argument
         ("UDPConnection::write: unable to resolve the given remote "
          +:+ dquote +:+ remote +:+ dquote)))),
       world_of rr, trace_of rr).
Proof.
  cbv zeta. eexists. split; [vm_compute; reflexivity|].
  split; [reflexivity|].
  eapply (udp_write_to_unresolvable Scenario.os_no_such_host Scenario.fresh
            Scenario.listening 6 1000 "udp://nowhere.invalid:9");
    [vm_compute; reflexivity | reflexivity].
Defined.

(** The handle [__resolve] hands back is the one the cache holds for the
    remote afterwards. *)
Lemma resolve_member_caches (os : oracle) (w : world) (remote : string)
    (x : Expected.t addrinfo) :
  let r := run os (UDPConnectionImpl.__resolve remote) w in
  result_of r = Returns x -> Expected.erred x = false ->
  exists h, x = Expected.of_value h /\
            remotes (world_of r) !! remote = Some h.
Proof.
  cbv zeta. unfold UDPConnectionImpl.__resolve.
  cbn [mbind prog_bind invoke bind run respond advance clock remotes].
  destruct (remotes w !! remote) as [h|] eqn:Hfind.
  - cbn. intros [= <-] _. exists h. split; [reflexivity | exact Hfind].
  - cbn [bind run respond advance clock remotes].
    change (advance (advance (advance w mutex_lock) (remotes_find remote))
              mutex_unlock) with (after_lookup w).
    rewrite run_bind.
    pose proof (only_os_calls_run os _ (after_lookup w)
                  (resolve_only_os_calls remote)) as (Hrem & _).
    pose proof (resolve_result_shape os remote (after_lookup w)) as Hshape.
    destruct (run os (resolve remote) (after_lookup w)) as [[o w1] tr1].
    unfold world_of, result_of in *. cbn [fst snd] in *.
    destruct o as [y | e |]; try discriminate.
    destruct (Hshape y eq_refl) as [[h ->] | [msg ->]]; cbn.
    + intros [= <-] _. exists h. split; [reflexivity|].
      apply lookup_insert_eq.
    + intros [= <-]. discriminate.
Qed.

(** A cached remote is written to without a resolution. *)
Lemma write_to_cached_no_resolution (os : oracle) (w : world)
    (c : UDPConnectionImpl.t) (b t : Z) (remote : string) (h : addrinfo) :
  remotes w !! remote = Some h ->
  "getaddrinfo"
  ∉ names (trace_of (run os (UDPConnectionImpl.write_to c b remote t) w)).
Proof.
  intros Hfind.
  unfold UDPConnectionImpl.write_to, UDPConnectionImpl.__resolve, poll,
    trace_of.
  run_steps. cbn [remotes advance]. rewrite Hfind. run_steps.
  destruct (os (S (S (S (clock w)))) _ _) as [result revents]. run_steps.
  destruct (poll_failed result revents); run_steps;
    [intros Hin; not_in_trace Hin|].
  case_decide; run_steps; [intros Hin; not_in_trace Hin|].
  case_decide; run_steps; intros Hin; not_in_trace Hin.
Qed.

(** X20: once an addressed UDP write to a remote has handed back a
    count, the remote is in the peer cache, and every later addressed
    write to the same remote, whatever its buffer and deadline and
    whatever the environment does, makes no name resolution. *)
Theorem udp_write_then_write (os : oracle) (w : world)
    (c : UDPConnectionImpl.t) (b t b' t' s : Z) (remote : string) :
  let first := run os (UDPConnectionImpl.write_to c b remote t) w in
  result_of first = Returns (Expected.of_value s) ->
  is_Some (remotes (world_of first) !! remote) /\
  "getaddrinfo"
  ∉ names (trace_of (run os (UDPConnectionImpl.write_to c b' remote t')
                       (world_of first))).
Proof.
  cbv zeta. intros Hres.
  assert (Hc : is_Some
            (remotes (world_of
               (run os (UDPConnectionImpl.write_to c b remote t) w))
             !! remote)).
  { revert Hres. unfold UDPConnectionImpl.write_to. rewrite run_bind.
    pose proof (resolve_member_caches os w remote) as Hcache. cbv zeta in Hcache.
    destruct (run os (UDPConnectionImpl.__resolve remote) w)
      as [[[x | e |] w1] tr1]; unfold result_of, world_of in *;
      cbn [fst snd] in *; try discriminate.
    destruct (Expected.erred x) eqn:Herr.
    { rewrite unexpected_ret by reflexivity. cbn. discriminate. }
    destruct (Hcache x eq_refl Herr) as (h & -> & Hh).
    match goal with
    | |- context [run os ?p w1] =>
        assert (Hp : only_calls (@os_call) p) by (unfold poll; solve_calls);
        pose proof (only_os_calls_run os p w1 Hp) as (Hrem & _);
        destruct (run os p w1) as [[o w2] tr2]
    end.
    unfold world_of in Hrem. cbn [fst snd] in *. intros _.
    rewrite Hrem, Hh. eexists. reflexivity. }
  split; [exact Hc|].
  destruct Hc as [h Hh].
  exact (write_to_cached_no_resolution os _ c b' t' remote h Hh).
Qed.

Lemma udp_write_then_write_witness :
  let first := run Scenario.os_ok
                 (UDPConnectionImpl.write_to Scenario.listening 6
                    "udp://127.0.0.1:9998" 1000) Scenario.fresh in
  result_of first = Returns (Expected.of_value 6) /\
  is_Some (remotes (world_of first) !! "udp://127.0.0.1:9998") /\
  "getaddrinfo"
  ∉ names (trace_of (run Scenario.os_ok
                       (UDPConnectionImpl.write_to Scenario.listening 1024
                          "udp://127.0.0.1:9998" (-1))
                       (world_of first))).
Proof.
  cbv zeta. split; [vm_compute; reflexivity|].
  apply (udp_write_then_write Scenario.os_ok Scenario.fresh
           Scenario.listening 6 1000 1024 (-1) 6 "udp://127.0.0.1:9998").
  vm_compute. reflexivity.
Defined.

(** ** The mode a UDP connection is constructed in *)

(** X21: whatever [listen_udp] hands back is a listening connection: its
    remote address is the sentinel [?], its local address string begins
    with [udp://], and the unaddressed write on it is refused with a
    [std::logic_error] before any call. *)
Theorem listen_udp_is_listening (os : oracle) (w : world) (address : string)
    (c : UDPConnectionImpl.t) :
  result_of (run os (listen_udp address) w) = Returns c ->
  UDPConnectionImpl.remote_addr c = UDPConnectionImpl.unknown_addr /\
  (exists local, UDPConnectionImpl.local_addr c = "udp://" +:+ local) /\
  forall b t, exists msg,
    UDPConnectionImpl.write c b t =
      Ret (Expected.of_exception_ptr (Some (std_logic_error msg))).
Proof.
  assert (Hmode : forall socket local,
    let c := {| UDPConnectionImpl.__socket := socket;
                UDPConnectionImpl.__local_addr := "udp://" +:+ local;
                UDPConnectionImpl.__remote_addr :=
                  UDPConnectionImpl.unknown_addr |} in
    UDPConnectionImpl.remote_addr c = UDPConnectionImpl.unknown_addr /\
    (exists local, UDPConnectionImpl.local_addr c = "udp://" +:+ local) /\
    forall b t, exists msg,
      UDPConnectionImpl.write c b t =
        Ret (Expected.of_exception_ptr (Some (std_logic_error msg)))).
  { intros socket local. cbv zeta. split; [reflexivity|].
    split; [eexists; reflexivity|]. intros b t.
    unfold UDPConnectionImpl.write. cbn [UDPConnectionImpl.__remote_addr].
    destruct (decide (UDPConnectionImpl.unknown_addr
                      = UDPConnectionImpl.unknown_addr)); [|contradiction].
    rewrite unexpected_ret by reflexivity. eexists. reflexivity. }
  unfold listen_udp, resolve, UDPConnectionImpl.listening_ctor, netaddr,
    result_of.
  destruct (Snipper.snip (Snipper.new address 3) "://")
    as [[protocol s1] | e |]; cbn; try discriminate.
  destruct (Snipper.snip s1 ":") as [[hostname s2] | e |]; cbn;
    try discriminate.
  destruct protocol as [protocol|]; cbn; try discriminate.
  crunch; try discriminate; intros [= <-]; apply Hmode.
Qed.

Lemma listen_udp_is_listening_witness :
  exists c,
    result_of (run Scenario.os_ok (listen_udp "udp://127.0.0.1:9999")
                 Scenario.fresh) = Returns c /\
    UDPConnectionImpl.remote_addr c = UDPConnectionImpl.unknown_addr /\
    (exists local, UDPConnectionImpl.local_addr c = "udp://" +:+ local) /\
    forall b t, exists msg,
      UDPConnectionImpl.write c b t =
        Ret (Expected.of_exception_ptr (Some (std_logic_error msg))).
Proof.
  eexists. split; [vm_compute; reflexivity|].
  apply (listen_udp_is_listening Scenario.os_ok Scenario.fresh
           "udp://127.0.0.1:9999").
  vm_compute. reflexivity.
Defined.

(** X22: whatever [dial_udp] hands back is a dialing connection: its
    remote address is the address string that was dialed, letter for
    letter, which is never the sentinel [?]; its local address string
    begins with [udp://]; and the unaddressed write on it is the
    addressed write to the dialed address. *)
Theorem dial_udp_is_dialing (os : oracle) (w : world) (address : string)
    (c : UDPConnectionImpl.t) :
  result_of (run os (dial_udp address) w) = Returns c ->
  UDPConnectionImpl.remote_addr c = address /\
  address <> UDPConnectionImpl.unknown_addr /\
  (exists local, UDPConnectionImpl.local_addr c = "udp://" +:+ local) /\
  forall b t,
    UDPConnectionImpl.write c b t = UDPConnectionImpl.write_to c b address t.
Proof.
  destruct (decide (address = UDPConnectionImpl.unknown_addr)) as [->|Hne].
  { intros H. vm_compute in H. discriminate. }
  assert (Hmode : forall socket local,
    let c := {| UDPConnectionImpl.__socket := socket;
                UDPConnectionImpl.__local_addr := "udp://" +:+ local;
                UDPConnectionImpl.__remote_addr := address |} in
    UDPConnectionImpl.remote_addr c = address /\
    address <> UDPConnectionImpl.unknown_addr /\
    (exists local, UDPConnectionImpl.local_addr c = "udp://" +:+ local) /\
    forall b t,
      UDPConnectionImpl.write c b t
      = UDPConnectionImpl.write_to c b address t).
  { intros socket local. cbv zeta. split; [reflexivity|].
    split; [exact Hne|].
    split; [eexists; reflexivity|]. intros b t.
    unfold UDPConnectionImpl.write. cbn [UDPConnectionImpl.__remote_addr].
    destruct (decide (address = UDPConnectionImpl.unknown_addr));
      [contradiction | reflexivity]. }
  unfold dial_udp, resolve, UDPConnectionImpl.dialing_ctor, netaddr_socket,
    netaddr, result_of.
  destruct (Snipper.snip (Snipper.new address 3) "://")
    as [[protocol s1] | e |]; cbn; try discriminate.
  destruct (Snipper.snip s1 ":") as [[hostname s2] | e |]; cbn;
    try discriminate.
  destruct protocol as [protocol|]; cbn; try discriminate.
  crunch; try discriminate; intros [= <-]; apply Hmode.
Qed.

Lemma dial_udp_is_dialing_witness :
  exists c,
    result_of (run Scenario.os_ok (dial_udp "udp://127.0.0.1:9998")
                 Scenario.fresh) = Returns c /\
    UDPConnectionImpl.remote_addr c = "udp://127.0.0.1:9998" /\
    "udp://127.0.0.1:9998" <> UDPConnectionImpl.unknown_addr /\
    (exists local, UDPConnectionImpl.local_addr c = "udp://" +:+ local) /\
    forall b t,
      UDPConnectionImpl.write c b t
      = UDPConnectionImpl.write_to c b "udp://127.0.0.1:9998" t.
Proof.
  eexists. split; [vm_compute; reflexivity|].
  apply (dial_udp_is_dialing Scenario.os_ok Scenario.fresh
           "udp://127.0.0.1:9998").
  vm_compute. reflexivity.
Defined.

(** ** Descriptors of the TCP side *)

(** X23: a TCP listener whose construction fails has closed nothing
    exactly when it is [socket] itself that failed (answered -1): the
    calls are then [socket] and [strerror].  When the descriptor exists
    and the failure is that of [setsockopt], [bind] or [listen], the
    constructor closes that descriptor, once, before it throws. *)
Theorem tcp_listener_ctor_failure_closes (os : oracle) (w : world)
    (resolved : addrinfo) (e : exception) :
  let r := run os (TCPListenerImpl.ctor resolved) w in
  let fd := os (clock w) _ (sys_socket (ai_family resolved)
                              (ai_socktype resolved) (ai_protocol resolved)) in
  result_of r = Throws e ->
  if decide (fd = -1) then
    names (trace_of r) = ["socket"; "strerror"]
  else
    (names (trace_of r) = ["socket"; "setsockopt"; "close"; "strerror"] \/
     names (trace_of r) =
       ["socket"; "setsockopt"; "bind"; "close"; "strerror"] \/
     names (trace_of r) =
       ["socket"; "setsockopt"; "bind"; "listen"; "close"; "strerror"]) /\
    count (is_socket_created fd) (trace_of r) = 1%nat /\
    count (is_close fd) (trace_of r) = 1%nat.
Proof.
  cbv zeta. unfold TCPListenerImpl.ctor, result_of, trace_of.
  run_steps. set (fd := os (clock w) Z _).
  destruct (decide (fd = -1)) as [Hfd|Hfd]; run_steps; [auto|].
  repeat (case_decide; run_steps); try discriminate; intros _;
    (split; [auto|]); split; count_events.
Qed.

Lemma tcp_listener_ctor_failure_closes_witness :
  let resolved :=
    mk_addrinfo AF_INET SOCK_STREAM 0
      (mk_sockaddr_ptr 0x55555556ffe0 (Scenario.loopback Scenario.port_5432))
      16 in
  let r := run Scenario.os_address_in_use (TCPListenerImpl.ctor resolved)
             Scenario.fresh in
  exists e,
    result_of r = Throws e /\
    names (trace_of r) =
      ["socket"; "setsockopt"; "bind"; "close"; "strerror"] /\
    count (is_socket_created 3) (trace_of r) = 1%nat /\
    count (is_close 3) (trace_of r) = 1%nat.
Proof.
  cbv zeta. eexists. split; [vm_compute; reflexivity|].
  pose proof (tcp_listener_ctor_failure_closes Scenario.os_address_in_use
                Scenario.fresh
                (mk_addrinfo AF_INET SOCK_STREAM 0
                   (mk_sockaddr_ptr 0x55555556ffe0
                      (Scenario.loopback Scenario.port_5432)) 16)
                _ eq_refl) as H.
  cbv zeta in H. destruct H as (_ & Hs & Hc).
  split; [vm_compute; reflexivity|]. split; [exact Hs | exact Hc].
Defined.

Lemma tcp_ctor_connect_failure_closes_witness :
  let resolved :=
    mk_addrinfo AF_INET SOCK_STREAM 0
      (mk_sockaddr_ptr 0x55555556ffe0 (Scenario.loopback Scenario.port_5432))
      16 in
  let r := run Scenario.os_address_in_use (TCPConnectionImpl.ctor resolved)
             Scenario.fresh in
  exists e,
    result_of r = Throws e /\
    ("connect" ∈ names (trace_of r)) /\
    ("getsockname" ∉ names (trace_of r)) /\
    exists fd,
      fd <> -1 /\
      names (trace_of r) =
        ["inet_ntop"; "socket"; "connect"; "close"; "strerror"] /\
      count (is_socket_created fd) (trace_of r) = 1%nat /\
      count (is_close fd) (trace_of r) = 1%nat.
Proof.
  cbv zeta. eexists. split; [vm_compute; reflexivity|].
  assert (Hin : "connect" ∈ names (trace_of
            (run Scenario.os_address_in_use
               (TCPConnectionImpl.ctor
                  (mk_addrinfo AF_INET SOCK_STREAM 0
                     (mk_sockaddr_ptr 0x55555556ffe0
                        (Scenario.loopback Scenario.port_5432)) 16))
               Scenario.fresh))).
  { apply list_elem_of_In. vm_compute. auto 10. }
  assert (Hout : "getsockname" ∉ names (trace_of
            (run Scenario.os_address_in_use
               (TCPConnectionImpl.ctor
                  (mk_addrinfo AF_INET SOCK_STREAM 0
                     (mk_sockaddr_ptr 0x55555556ffe0
                        (Scenario.loopback Scenario.port_5432)) 16))
               Scenario.fresh))).
  { intros H. apply list_elem_of_In in H. vm_compute in H.
    intuition discriminate. }
  split; [exact Hin|]. split; [exact Hout|].
  eapply (tcp_ctor_connect_failure_closes Scenario.os_address_in_use
            Scenario.fresh); [vm_compute; reflexivity | exact Hin | exact Hout].
Defined.

(** X28: in every environment, a TCP connection that [dial_tcp] hands
    back and that is then destroyed has created exactly one descriptor
    and closed it exactly once, as the last call it makes. *)
Theorem tcp_lifetime_closes_once (os : oracle) (w : world) (address : string) :
  let r := run os (Scenario.tcp_lifetime address) w in
  result_of r = Returns tt ->
  exists fd tr a,
    fd <> -1 /\
    trace_of r = (tr ++ [Event (sys_close fd) a])%list /\
    count (is_socket_created fd) (trace_of r) = 1%nat /\
    count (is_close fd) (trace_of r) = 1%nat.
Proof.
  cbv zeta.
  unfold Scenario.tcp_lifetime, dial_tcp, resolve, TCPConnectionImpl.ctor,
    TCPConnectionImpl.dtor, netaddr_socket, netaddr, result_of, trace_of.
  destruct (Snipper.snip (Snipper.new address 3) "://")
    as [[protocol s1] | e |]; cbn; try discriminate.
  destruct (Snipper.snip s1 ":") as [[hostname s2] | e |]; cbn;
    try discriminate.
  destruct protocol as [protocol|]; cbn; try discriminate.
  crunch; try discriminate; intros _;
    match goal with
    | |- context [Event (sys_close ?fd) _] => exists fd
    end;
    eexists (_ :: _ :: _ :: _ :: _ :: _ :: nil), _;
    (split; [assumption|]); (split; [reflexivity|]); split; count_events.
Qed.

Lemma tcp_lifetime_closes_once_witness :
  let r := run Scenario.os_ok (Scenario.tcp_lifetime "tcp://127.0.0.1:5432")
             Scenario.fresh in
  result_of r = Returns tt /\
  exists fd tr a,
    fd <> -1 /\
    trace_of r = (tr ++ [Event (sys_close fd) a])%list /\
    count (is_socket_created fd) (trace_of r) = 1%nat /\
    count (is_close fd) (trace_of r) = 1%nat.
Proof.
  cbv zeta. split; [vm_compute; reflexivity|].
  apply (tcp_lifetime_closes_once Scenario.os_ok Scenario.fresh
           "tcp://127.0.0.1:5432").
  vm_compute. reflexivity.
Defined.

(** X29: a TCP connection that is constructed has made exactly five
    calls, in this order: [inet_ntop] on the resolved address (before any
    socket exists), [socket], [connect] to the resolved address, then
    [getsockname] and [inet_ntop] for the descriptor it then owns; it has
    created that one descriptor and closed nothing, and both of its
    address strings begin with [tcp://]. *)
Theorem tcp_ctor_success (os : oracle) (w : world) (resolved : addrinfo)
    (c : TCPConnectionImpl.t) :
  let r := run os (TCPConnectionImpl.ctor resolved) w in
  result_of r = Returns c ->
  exists fd a,
    fd <> -1 /\
    TCPConnectionImpl.__socket c = fd /\
    names (trace_of r) =
      ["inet_ntop"; "socket"; "connect"; "getsockname"; "inet_ntop"] /\
    nth_error (trace_of r) 2 =
      Some (Event (sys_connect fd (ai_addr resolved) (ai_addrlen resolved))
              a) /\
    count (is_socket_created fd) (trace_of r) = 1%nat /\
    (exists local, TCPConnectionImpl.local_addr c = "tcp://" +:+ local) /\
    (exists remote, TCPConnectionImpl.remote_addr c = "tcp://" +:+ remote).
Proof.
  cbv zeta. unfold TCPConnectionImpl.ctor, netaddr_socket, netaddr,
    result_of, trace_of.
  crunch; try discriminate; intros [= <-];
    cbn [TCPConnectionImpl.__socket TCPConnectionImpl.local_addr
         TCPConnectionImpl.remote_addr TCPConnectionImpl.__local_addr
         TCPConnectionImpl.__remote_addr];
    match goal with
    | |- context [Event (sys_connect ?fd _ _) _] => exists fd
    end;
    eexists; (split; [assumption|]); (split; [reflexivity|]);
    (split; [reflexivity|]); (split; [reflexivity|]);
    (split; [count_events|]); split; eexists; reflexivity.
Qed.

Lemma tcp_ctor_success_witness :
  let resolved :=
    mk_addrinfo AF_INET SOCK_STREAM 0
      (mk_sockaddr_ptr 0x55555556ffe0 (Scenario.loopback Scenario.port_5432))
      16 in
  let r := run Scenario.os_ok (TCPConnectionImpl.ctor resolved)
             Scenario.fresh in
  exists c,
    result_of r = Returns c /\
    exists fd a,
      fd <> -1 /\
      TCPConnectionImpl.__socket c = fd /\
      names (trace_of r) =
        ["inet_ntop"; "socket"; "connect"; "getsockname"; "inet_ntop"] /\
      nth_error (trace_of r) 2 =
        Some (Event (sys_connect fd (ai_addr resolved) (ai_addrlen resolved))
                a) /\
      count (is_socket_created fd) (trace_of r) = 1%nat /\
      (exists local, TCPConnectionImpl.local_addr c = "tcp://" +:+ local) /\
      (exists remote, TCPConnectionImpl.remote_addr c = "tcp://" +:+ remote).
Proof.
  cbv zeta. eexists. split; [vm_compute; reflexivity|].
  eapply (tcp_ctor_success Scenario.os_ok Scenario.fresh).
  vm_compute. reflexivity.
Defined.
